(** * pi_self_monitor: a shallow embedding and its checked properties

    The program is a polling monitor: a background loop samples the host
    (CPU, memory, disk, temperature, uptime) and two services (Pi-hole and
    PiVPN) every ten seconds and stores the result in a module-level
    dictionary [STATE]; an HTTP handler renders that dictionary as JSON
    ([/health]), as a text metric feed ([/metrics]) and as HTML ([/]).

    Layout of this file:
    - [Py]: the Python built-ins the program relies on (text as code points,
      [str.strip], [str.splitlines], [bytes.decode], exceptions);
    - the host interface (everything the program asks the operating system
      or a library for), helpers, collectors, the poll loop and the
      projections, each definition following one function of
      [pi_self_monitor.py];
    - an interleaving semantics of the poll thread against request handlers;
    - the notions the properties are stated with, and hosts to run the
      definitions on;
    - the checked properties, C1 to C10.

    The HTML page of [handle_dashboard] and the socket plumbing
    ([_send_json], [_send_text], [do_GET], [main]) are not modelled. *)

From Stdlib Require Import ZArith NArith List Bool Lia Ascii String Floats.
From Stdlib Require Import DecimalString DecimalPos.
From stdpp Require Import base option list gmap.

Import ListNotations.
Open Scope Z_scope.

#[local] Set Warnings "-inexact-float".

(* ===================================================================== *)
(** ** Python built-ins *)
(* ===================================================================== *)

Module Py.

(** A Python [str] is a sequence of Unicode code points. *)
Abbreviation str := (list N).

(** A [bytes] object. *)
Abbreviation bytes := (list Byte.byte).

(** ASCII literals: [lit "active"] is the [str] ["active"]. *)
Definition lit (s : string) : str :=
  List.map N_of_ascii (list_ascii_of_string s).

Definition str_eqb (a b : str) : bool := bool_decide (a = b).

(** [ch.isspace()] for one code point (CPython's [_PyUnicode_IsWhitespace]). *)
Definition isspace (c : N) : bool :=
  ((0x09 <=? c) && (c <=? 0x0D) || (0x1C <=? c) && (c <=? 0x1F)
   || (c =? 0x20) || (c =? 0x85) || (c =? 0xA0) || (c =? 0x1680)
   || (0x2000 <=? c) && (c <=? 0x200A) || (c =? 0x2028) || (c =? 0x2029)
   || (c =? 0x202F) || (c =? 0x205F) || (c =? 0x3000))%N.

(** Line boundaries of [str.splitlines] (CPython's [_PyUnicode_IsLinebreak]). *)
Definition is_linebreak (c : N) : bool :=
  ((0x0A <=? c) && (c <=? 0x0D) || (0x1C <=? c) && (c <=? 0x1E)
   || (c =? 0x85) || (c =? 0x2028) || (c =? 0x2029))%N.

Fixpoint lstrip (s : str) : str :=
  match s with
  | c :: r => if isspace c then lstrip r else s
  | [] => []
  end.

Definition rstrip (s : str) : str := rev (lstrip (rev s)).

(** [s.strip()] *)
Definition strip (s : str) : str := rstrip (lstrip s).

(** [s.splitlines()]: the text is cut at every line boundary, a carriage
    return followed by a line feed counts as one boundary, and a trailing
    boundary opens no further line.  [cur] is the line being read. *)
Fixpoint splitlines_from (cur : str) (s : str) : list str :=
  match s with
  | [] => match cur with [] => [] | _ => [cur] end
  | c :: r =>
      if is_linebreak c then
        match r with
        | c' :: r' =>
            if ((c =? 0x0D) && (c' =? 0x0A))%N
            then cur :: splitlines_from [] r'
            else cur :: splitlines_from [] r
        | [] => [cur]
        end
      else splitlines_from (cur ++ [c]) r
  end.

Definition splitlines (s : str) : list str := splitlines_from [] s.

(** [s.split()]: the maximal runs of non-whitespace code points. *)
Fixpoint split_from (cur : str) (s : str) : list str :=
  match s with
  | [] => match cur with [] => [] | _ => [cur] end
  | c :: r =>
      if isspace c
      then match cur with [] => split_from [] r | _ => cur :: split_from [] r end
      else split_from (cur ++ [c]) r
  end.

Definition split (s : str) : list str := split_from [] s.

(** [", ".join(...)]-style joining with a separator. *)
Fixpoint join (sep : str) (parts : list str) : str :=
  match parts with
  | [] => []
  | [p] => p
  | p :: rest => p ++ sep ++ join sep rest
  end.

(** *** [bytes.decode("utf-8", errors="ignore")]

    CPython's decoder, with the [ignore] handler: a well-formed sequence
    yields its code point; at an ill-formed one the offending prefix (one
    to three bytes) is dropped and decoding resumes right after it; a
    sequence cut short by the end of the input is dropped. *)

Definition is_cont (b : N) : bool := ((0x80 <=? b) && (b <? 0xC0))%N.

Definition cp2 (b0 b1 : N) : N := ((b0 - 0xC0) * 64 + (b1 - 0x80))%N.
Definition cp3 (b0 b1 b2 : N) : N :=
  ((b0 - 0xE0) * 4096 + (b1 - 0x80) * 64 + (b2 - 0x80))%N.
Definition cp4 (b0 b1 b2 b3 : N) : N :=
  ((b0 - 0xF0) * 262144 + (b1 - 0x80) * 4096 + (b2 - 0x80) * 64 + (b3 - 0x80))%N.

(** The second byte of a three-byte form must not encode an overlong form
    ([E0 80..9F]) nor a surrogate ([ED A0..BF]); likewise for four bytes. *)
Definition bad_second3 (b0 b1 : N) : bool :=
  (negb (is_cont b1) || (if b1 <? 0xA0 then b0 =? 0xE0 else b0 =? 0xED))%N.
Definition bad_second4 (b0 b1 : N) : bool :=
  (negb (is_cont b1) || (if b1 <? 0x90 then b0 =? 0xF0 else b0 =? 0xF4))%N.

Fixpoint utf8_ignore (bs : list N) : str :=
  match bs with
  | [] => []
  | b0 :: r0 =>
      if (b0 <? 0x80)%N then b0 :: utf8_ignore r0
      else if (b0 <? 0xC2)%N then utf8_ignore r0
      else if (b0 <? 0xE0)%N then
        match r0 with
        | [] => []
        | b1 :: r1 =>
            if is_cont b1 then cp2 b0 b1 :: utf8_ignore r1 else utf8_ignore r0
        end
      else if (b0 <? 0xF0)%N then
        match r0 with
        | [] => []
        | b1 :: r1 =>
            if bad_second3 b0 b1 then utf8_ignore r0
            else match r1 with
                 | [] => []
                 | b2 :: r2 =>
                     if is_cont b2 then cp3 b0 b1 b2 :: utf8_ignore r2
                     else utf8_ignore r1
                 end
        end
      else if (b0 <? 0xF5)%N then
        match r0 with
        | [] => []
        | b1 :: r1 =>
            if bad_second4 b0 b1 then utf8_ignore r0
            else match r1 with
                 | [] => []
                 | b2 :: r2 =>
                     if negb (is_cont b2) then utf8_ignore r1
                     else match r2 with
                          | [] => []
                          | b3 :: r3 =>
                              if is_cont b3
                              then cp4 b0 b1 b2 b3 :: utf8_ignore r3
                              else utf8_ignore r2
                          end
                 end
        end
      else utf8_ignore r0
  end.

Definition decode_utf8_ignore (b : bytes) : str :=
  utf8_ignore (List.map Byte.to_N b).

(** The strict decoder would raise [UnicodeDecodeError] exactly on the
    inputs from which [ignore] drops something: those whose decoding does
    not encode back to as many bytes. *)
Definition utf8_width (c : N) : nat :=
  (if (c <? 0x80)%N then 1 else if (c <? 0x800)%N then 2
   else if (c <? 0x10000)%N then 3 else 4)%nat.

Definition valid_utf8 (b : bytes) : bool :=
  Nat.eqb (list_sum (List.map utf8_width (decode_utf8_ignore b))) (List.length b).

(** *** Exceptions *)

Inductive exn_class :=
| CalledProcessError   (* non-zero exit status *)
| TimeoutExpired
| FileNotFoundError    (* missing binary or file *)
| OSError
| ValueError
| TypeError
| AttributeError
| IndexError
| OverflowError
| JSONDecodeError
| RuntimeError.

(** An exception object: its class and what [str(e)] gives. *)
Record exn := mk_exn { exn_class_of : exn_class; exn_str : str }.

(** Of the classes above only [JSONDecodeError] derives from [ValueError];
    all derive from [Exception]. *)
Definition is_value_error (e : exn) : bool :=
  match exn_class_of e with ValueError | JSONDecodeError => true | _ => false end.
Definition is_type_error (e : exn) : bool :=
  match exn_class_of e with TypeError => true | _ => false end.

(** A computation that returns or raises. *)
Inductive result (A : Type) :=
| Ok (a : A)
| Raise (e : exn).
Arguments Ok {A} a.
Arguments Raise {A} e.

Definition bind {A B} (m : result A) (k : A -> result B) : result B :=
  match m with Ok a => k a | Raise e => Raise e end.

(** [try: body / except Exception as e: handler e] *)
Definition try_except {A} (body : result A) (handler : exn -> result A) : result A :=
  match body with Ok a => Ok a | Raise e => handler e end.

(** [try: body / except (E1, E2): handler], other classes propagate. *)
Definition try_except_only {A} (caught : exn -> bool) (body : result A)
    (handler : exn -> result A) : result A :=
  match body with
  | Ok a => Ok a
  | Raise e => if caught e then handler e else Raise e
  end.

Definition raises {A} (m : result A) : Prop := exists e, m = Raise e.
Definition returns {A} (m : result A) (a : A) : Prop := m = Ok a.

End Py.

Import Py.

Notation "'let!' x ':=' m 'in' k" := (bind m (fun x => k))
  (at level 10, x name, m at level 100, k at level 200,
   format "'[' 'let!'  x  ':='  m  'in' ']' '/' k").

(** [str(n)] for an [int]. *)
Definition str_of_int (n : Z) : str :=
  lit (NilEmpty.string_of_int (Z.to_int n)).

(** [float(n)] for an [int]: the nearest double, ties to even; an [int]
    beyond the range of a double raises [OverflowError]. *)
Definition float_of_int (n : Z) : result float :=
  let f := SF2Prim (binary_normalize prec emax n 0 false) in
  if is_infinity f
  then Raise (mk_exn OverflowError (lit "int too large to convert to float"))
  else Ok f.

(** A value produced by [json.loads]. *)
#[local] Unset Elimination Schemes.
Inductive json :=
| JNull
| JBool (b : bool)
| JInt (n : Z)
| JFloat (f : float)
| JStr (s : str)
| JList (items : list json)
| JDict (items : list (str * json)).
#[local] Set Elimination Schemes.

Fixpoint assoc_get (items : list (str * json)) (key : str) : option json :=
  match items with
  | [] => None
  | (k, v) :: rest => if str_eqb k key then Some v else assoc_get rest key
  end.

(** [data.get(key)]: only a [dict] has the method; a missing key gives [None]. *)
Definition json_get (data : json) (key : str) : result json :=
  match data with
  | JDict items => Ok (default JNull (assoc_get items key))
  | _ => Raise (mk_exn AttributeError (lit "object has no attribute 'get'"))
  end.

(* ===================================================================== *)
(** ** The host: what the interpreter and the operating system answer *)
(* ===================================================================== *)

(** [psutil.virtual_memory()] and [psutil.disk_usage(path)], the fields read. *)
Record svmem := { vm_total : Z; vm_used : Z; vm_percent : float }.
Record sdiskusage := { du_total : Z; du_used : Z; du_percent : float }.

Record host := {
  (** [subprocess.check_output(cmd, stderr=DEVNULL, timeout=t)] *)
  check_output : list str -> Z -> result bytes;
  (** [os.path.exists(p)] *)
  path_exists : str -> bool;
  (** [with open(p, "r") as f: f.read()] *)
  read_text : str -> result str;
  (** [psutil.cpu_percent(interval=None)] *)
  psutil_cpu_percent : result float;
  (** [os.getloadavg()] *)
  os_getloadavg : result (float * float * float);
  psutil_virtual_memory : result svmem;
  psutil_disk_usage : str -> result sdiskusage;
  (** [datetime.utcnow().isoformat()] *)
  utcnow_isoformat : str;
  (** [float(s)] for a [str]: [None] stands for [ValueError] *)
  float_of_str : str -> option float;
  (** [json.loads(s)] *)
  json_loads : str -> result json;
  (** [str(x)] for a [float], as an f-string prints it *)
  float_repr : float -> str;
}.

(** [float(v)] *)
Definition py_float (h : host) (v : json) : result float :=
  match v with
  | JBool b => Ok (if b then 1 else 0)%float
  | JInt n => float_of_int n
  | JFloat f => Ok f
  | JStr s =>
      match float_of_str h s with
      | Some f => Ok f
      | None => Raise (mk_exn ValueError (lit "could not convert string to float"))
      end
  | JNull | JList _ | JDict _ =>
      Raise (mk_exn TypeError (lit "float() argument must be a string or a real number"))
  end.

(* ===================================================================== *)
(** ** CONFIG *)
(* ===================================================================== *)

Record config := {
  POLL_INTERVAL : Z;
  PIHOLE_SERVICES : list str;
  PIVPN_SERVICES : list str;
}.

Definition CONFIG : config := {|
  POLL_INTERVAL := 10;
  PIHOLE_SERVICES := [lit "pihole-FTL.service"];
  PIVPN_SERVICES :=
    [lit "wg-quick@wg0.service"; lit "openvpn.service";
     lit "openvpn-server@server.service"];
|}.

(* ===================================================================== *)
(** ** HELPERS *)
(* ===================================================================== *)

Definition run_cmd (h : host) (cmd : list str) (timeout : Z) : result str :=
  try_except
    (let! out := check_output h cmd timeout in
     Ok (strip (decode_utf8_ignore out)))
    (fun _ => Ok []).

Definition service_active (h : host) (unit_name : str) : result bool :=
  match unit_name with
  | [] => Ok false
  | _ =>
      let! out := run_cmd h [lit "systemctl"; lit "is-active"; unit_name] 5 in
      Ok (str_eqb (strip out) (lit "active"))
  end.

(** [any(f(s) for s in l)]: stops at the first true answer. *)
Fixpoint any_of {A} (f : A -> result bool) (l : list A) : result bool :=
  match l with
  | [] => Ok false
  | x :: rest => let! b := f x in if b then Ok true else any_of f rest
  end.

Definition thermal_paths : list str :=
  [lit "/sys/class/thermal/thermal_zone0/temp";
   lit "/sys/class/hwmon/hwmon0/temp1_input"].

Definition float_or_raise (h : host) (s : str) : result float :=
  match float_of_str h s with
  | Some f => Ok f
  | None => Raise (mk_exn ValueError (lit "could not convert string to float"))
  end.

(** The body of the loop of [get_cpu_temp_c] for one existing path. *)
Definition read_temp (h : host) (p : str) : result float :=
  let! txt := read_text h p in
  let val := strip txt in
  let! x := float_or_raise h val in
  Ok (if (200 <? x)%float then (x / 1000)%float else x).

Fixpoint get_cpu_temp_c_from (h : host) (paths : list str) : option float :=
  match paths with
  | [] => None
  | p :: rest =>
      if path_exists h p then
        match read_temp h p with
        | Ok temp_c => Some temp_c
        | Raise _ => get_cpu_temp_c_from h rest
        end
      else get_cpu_temp_c_from h rest
  end.

Definition get_cpu_temp_c (h : host) : result (option float) :=
  Ok (get_cpu_temp_c_from h thermal_paths).

Definition get_uptime_seconds (h : host) : result (option float) :=
  try_except
    (let! txt := read_text h (lit "/proc/uptime") in
     match split txt with
     | first :: _ => let! x := float_or_raise h first in Ok (Some x)
     | [] => Raise (mk_exn IndexError (lit "list index out of range"))
     end)
    (fun _ => Ok None).

(* ===================================================================== *)
(** ** COLLECTORS *)
(* ===================================================================== *)

(** The dictionary built by [collect_system_stats], key by key. *)
Record system_stats := {
  time : str;
  cpu_percent : float;
  load_1 : float;
  load_5 : float;
  load_15 : float;
  mem_total : Z;
  mem_used : Z;
  mem_percent : float;
  disk_total : Z;
  disk_used : Z;
  disk_percent : float;
  temp_c : option float;
  uptime_seconds : option float;
}.

(** The dictionary built by [collect_pihole_stats]. *)
Record pihole_stats := {
  pihole_service_ok : bool;
  stats : gmap str json;
}.

(** The dictionary built by [collect_pivpn_stats]. *)
Record pivpn_stats := {
  pivpn_service_ok : bool;
  connected_clients : option Z;
}.

Definition collect_system_stats (h : host) : result system_stats :=
  let! cpu := psutil_cpu_percent h in
  let! loads := os_getloadavg h in
  let! mem := psutil_virtual_memory h in
  let! disk := psutil_disk_usage h (lit "/") in
  let! temp := get_cpu_temp_c h in
  let! uptime := get_uptime_seconds h in
  Ok {| time := utcnow_isoformat h ++ lit "Z";
        cpu_percent := cpu;
        load_1 := fst (fst loads);
        load_5 := snd (fst loads);
        load_15 := snd loads;
        mem_total := vm_total mem;
        mem_used := vm_used mem;
        mem_percent := vm_percent mem;
        disk_total := du_total disk;
        disk_used := du_used disk;
        disk_percent := du_percent disk;
        temp_c := temp;
        uptime_seconds := uptime |}.

Definition pihole_keys : list str :=
  [lit "dns_queries_today"; lit "ads_blocked_today";
   lit "ads_percentage_today"; lit "domains_being_blocked"].

(** [for key in [...]: stats[key] = data.get(key)].  The dictionary is
    filled in place, so what was stored before a raising [data.get] stays:
    the loop returns the dictionary and the exception, if any. *)
Fixpoint fill_stats (data : json) (keys : list str) (acc : gmap str json)
    : gmap str json * option exn :=
  match keys with
  | [] => (acc, None)
  | key :: rest =>
      match json_get data key with
      | Ok v => fill_stats data rest (<[key := v]> acc)
      | Raise e => (acc, Some e)
      end
  end.

(** The [if raw:] block of [collect_pihole_stats], from [stats = {}]. *)
Definition parse_pihole_stats (h : host) (raw : str) : gmap str json :=
  match raw with
  | [] => ∅
  | _ =>
      match json_loads h raw with
      | Ok data => fst (fill_stats data pihole_keys ∅)
      | Raise _ => ∅
      end
  end.

Definition collect_pihole_stats (cfg : config) (h : host) : result pihole_stats :=
  let! service_ok := any_of (service_active h) (PIHOLE_SERVICES cfg) in
  let! raw := run_cmd h [lit "pihole"; lit "-c"; lit "-j"] 5 in
  let stats := parse_pihole_stats h raw in
  Ok {| pihole_service_ok := service_ok; stats := stats |}.

(** [[l for l in raw.splitlines() if l.strip()]] *)
Definition client_lines (raw : str) : list str :=
  List.filter (fun l => match strip l with [] => false | _ => true end)
              (splitlines raw).

(** The [if raw:] block of [collect_pivpn_stats], from
    [connected_clients = None]. *)
Definition count_clients (raw : str) : option Z :=
  match raw with
  | [] => None
  | _ =>
      let lines := client_lines raw in
      if 3 <? Z.of_nat (List.length lines)
      then Some (Z.of_nat (List.length lines) - 3)
      else None
  end.

Definition collect_pivpn_stats (cfg : config) (h : host) : result pivpn_stats :=
  let! service_ok := any_of (service_active h) (PIVPN_SERVICES cfg) in
  let! raw := run_cmd h [lit "pivpn"; lit "-c"] 5 in
  Ok {| pivpn_service_ok := service_ok;
        connected_clients := count_clients raw |}.

(* ===================================================================== *)
(** ** SHARED STATE *)
(* ===================================================================== *)

(** [STATE].  Each of the three entries is either the empty dictionary it
    starts as ([None]) or a dictionary stored by the poll loop; the key
    ["last_error"] is absent until a cycle fails. *)
Record state := {
  system : option system_stats;
  pihole : option pihole_stats;
  pivpn : option pivpn_stats;
  last_error : option str;
}.

Definition STATE : state :=
  {| system := None; pihole := None; pivpn := None; last_error := None |}.

Definition set_system (x : system_stats) (st : state) : state :=
  {| system := Some x; pihole := pihole st; pivpn := pivpn st;
     last_error := last_error st |}.
Definition set_pihole (x : pihole_stats) (st : state) : state :=
  {| system := system st; pihole := Some x; pivpn := pivpn st;
     last_error := last_error st |}.
Definition set_pivpn (x : pivpn_stats) (st : state) : state :=
  {| system := system st; pihole := pihole st; pivpn := Some x;
     last_error := last_error st |}.
Definition set_last_error (x : str) (st : state) : state :=
  {| system := system st; pihole := pihole st; pivpn := pivpn st;
     last_error := Some x |}.

(** The [try] block of [update_loop] up to the first store: the three
    collectors in order. *)
Definition collect_cycle (c_sys : result system_stats)
    (c_ph : result pihole_stats) (c_pv : result pivpn_stats)
    : result (system_stats * pihole_stats * pivpn_stats) :=
  let! system_stats := c_sys in
  let! pihole_stats := c_ph in
  let! pivpn_stats := c_pv in
  Ok (system_stats, pihole_stats, pivpn_stats).

(** One pass through the body of [while True], the sleep left out, for
    given collectors. *)
Definition poll_cycle (c_sys : result system_stats)
    (c_ph : result pihole_stats) (c_pv : result pivpn_stats)
    (st : state) : state :=
  match collect_cycle c_sys c_ph c_pv with
  | Ok (system_stats, pihole_stats, pivpn_stats) =>
      set_pivpn pivpn_stats (set_pihole pihole_stats (set_system system_stats st))
  | Raise e => set_last_error (exn_str e) st
  end.

Definition update_iteration (cfg : config) (h : host) (st : state) : state :=
  poll_cycle (collect_system_stats h) (collect_pihole_stats cfg h)
             (collect_pivpn_stats cfg h) st.

(** [update_loop] over the hosts met by its first cycles. *)
Definition update_loop (cfg : config) (hs : list host) (st : state) : state :=
  fold_left (fun st h => update_iteration cfg h st) hs st.

(* ===================================================================== *)
(** ** HTTP HANDLER: the projections *)
(* ===================================================================== *)

(** The argument is [d.get("service_ok")]: [None] when the key is absent. *)
Definition bool_to_status (ok : option bool) : str :=
  match ok with
  | Some true => lit "OK"
  | Some false => lit "DOWN"
  | None => lit "UNKNOWN"
  end.

(** [d.get(key)] on an entry of [STATE]: [None] on the empty dictionary. *)
Definition get {D A} (field : D -> A) (d : option D) : option A :=
  match d with Some r => Some (field r) | None => None end.

(** [d.get(key)] for a key whose stored value may itself be [None]. *)
Definition get_opt {D A} (field : D -> option A) (d : option D) : option A :=
  match d with Some r => field r | None => None end.

(** The dictionary [health] of [handle_health], which [_send_json] dumps. *)
Record health_system := {
  hs_cpu_percent : option float;
  hs_mem_percent : option float;
  hs_disk_percent : option float;
  hs_temp_c : option float;
  hs_uptime_seconds : option float;
}.

Record health := {
  h_system : health_system;
  h_pihole_status : str;
  h_pihole_stats : gmap str json;
  h_pivpn_status : str;
  h_pivpn_connected_clients : option Z;
  h_overall_ok : bool;
  h_last_update : option str;
  h_last_error : option str;
}.

(** [x is True] *)
Definition is_True (x : option bool) : bool :=
  match x with Some true => true | _ => false end.

Definition handle_health (st : state) : health :=
  let sys_s := system st in
  let ph_s := pihole st in
  let pv_s := pivpn st in
  {| h_system :=
       {| hs_cpu_percent := get cpu_percent sys_s;
          hs_mem_percent := get mem_percent sys_s;
          hs_disk_percent := get disk_percent sys_s;
          hs_temp_c := get_opt temp_c sys_s;
          hs_uptime_seconds := get_opt uptime_seconds sys_s |};
     h_pihole_status := bool_to_status (get pihole_service_ok ph_s);
     h_pihole_stats := default ∅ (get stats ph_s);
     h_pivpn_status := bool_to_status (get pivpn_service_ok pv_s);
     h_pivpn_connected_clients := get_opt connected_clients pv_s;
     h_overall_ok :=
       is_True (get pihole_service_ok ph_s) && is_True (get pivpn_service_ok pv_s);
     h_last_update := get time sys_s;
     h_last_error := last_error st |}.

(** [f'{name} {d.get(key, 0)}']: the stored float, or the integer [0]. *)
Definition gauge (h : host) (name : string) (v : option float) : str :=
  lit name ++ lit " " ++
  match v with Some f => float_repr h f | None => str_of_int 0 end.

(** [f'{name} {1 if d.get("service_ok") else 0}'] *)
Definition ok_gauge (name : string) (ok : option bool) : str :=
  lit name ++ lit " " ++
  str_of_int (match ok with Some true => 1 | _ => 0 end).

(** One pass of the loop over the Pi-hole keys: the lines it appends. *)
Definition stat_lines (h : host) (stats : gmap str json) (k : str)
    : result (list str) :=
  match stats !! k with
  | None | Some JNull => Ok []
  | Some v =>
      try_except_only (fun e => is_value_error e || is_type_error e)
        (let! val := py_float h v in
         Ok [lit "pihole_" ++ k ++ lit " " ++ float_repr h val])
        (fun _ => Ok [])
  end.

Fixpoint stats_lines (h : host) (stats : gmap str json) (keys : list str)
    : result (list str) :=
  match keys with
  | [] => Ok []
  | k :: rest =>
      let! here := stat_lines h stats k in
      let! more := stats_lines h stats rest in
      Ok (here ++ more)
  end.

(** The list [lines] of [handle_metrics] when the body is joined. *)
Definition metrics_lines (h : host) (st : state) : result (list str) :=
  let sys_s := system st in
  let ph_s := pihole st in
  let pv_s := pivpn st in
  let stats := default ∅ (get stats ph_s) in
  let system_lines :=
    [gauge h "pi_cpu_percent" (get cpu_percent sys_s);
     gauge h "pi_load1" (get load_1 sys_s);
     gauge h "pi_load5" (get load_5 sys_s);
     gauge h "pi_load15" (get load_15 sys_s);
     gauge h "pi_mem_percent" (get mem_percent sys_s);
     gauge h "pi_disk_percent" (get disk_percent sys_s)]
    ++ match get_opt temp_c sys_s with
       | Some t => [lit "pi_temp_c " ++ float_repr h t]
       | None => []
       end
    ++ match get_opt uptime_seconds sys_s with
       | Some u => [lit "pi_uptime_seconds " ++ float_repr h u]
       | None => []
       end in
  let! pihole_lines := stats_lines h stats pihole_keys in
  Ok (system_lines
      ++ [ok_gauge "pihole_service_ok" (get pihole_service_ok ph_s)]
      ++ pihole_lines
      ++ [ok_gauge "pivpn_service_ok" (get pivpn_service_ok pv_s)]
      ++ match get_opt connected_clients pv_s with
         | Some n => [lit "pivpn_connected_clients " ++ str_of_int n]
         | None => []
         end).

(** ["\n"] *)
Definition NL : str := [10%N].

(** The [body] handed to [_send_text]. *)
Definition handle_metrics (h : host) (st : state) : result str :=
  let! lines := metrics_lines h st in
  Ok (join NL lines ++ NL).

(* ===================================================================== *)
(** ** The poll thread against the request handlers *)
(* ===================================================================== *)

(** The poll thread and the handlers share [STATE] and nothing else, and
    neither takes a lock.  A step of the interleaving is one access to
    [STATE]: one item assignment [STATE[key] = value] of the poll thread, or
    one [STATE.get(key)] of a handler; the interpreter may switch threads
    between any two of them.  The collectors do not touch [STATE], so a
    whole collection is one step. *)

(** Where the poll thread stands in the body of [while True]. *)
Inductive poll_pc :=
| W_collect
| W_store_system (s : system_stats) (p : pihole_stats) (v : pivpn_stats)
| W_store_pihole (p : pihole_stats) (v : pivpn_stats)
| W_store_pivpn (v : pivpn_stats)
| W_store_error (e : exn)
| W_sleep.

(** What a handler has read: [sys_s], [ph_s], [pv_s] and, for [/health]
    and [/], [STATE.get("last_error")]. *)
Record view := {
  v_system : option system_stats;
  v_pihole : option pihole_stats;
  v_pivpn : option pivpn_stats;
  v_last_error : option str;
}.

(** Where a handler stands: the reads happen in this order. *)
Inductive handler_pc :=
| R_start
| R_system (s : option system_stats)
| R_pihole (s : option system_stats) (p : option pihole_stats)
| R_pivpn (s : option system_stats) (p : option pihole_stats)
          (v : option pivpn_stats)
| R_done (w : view).

Record machine := {
  shared : state;
  cycle : nat;
  poll : poll_pc;
  handlers : list handler_pc;
}.

Inductive action :=
| Poll                 (* the poll thread takes its next step *)
| Accept               (* a request arrives: a new handler starts *)
| Handler (i : nat).   (* handler [i] takes its next step *)

Definition boot : machine :=
  {| shared := STATE; cycle := 0%nat; poll := W_collect; handlers := [] |}.

Section Interleaving.

(** What the collectors of cycle [k] return. *)
Variable collected : nat -> result (system_stats * pihole_stats * pivpn_stats).

Definition poll_step (m : machine) : machine :=
  match poll m with
  | W_collect =>
      {| shared := shared m; cycle := cycle m; handlers := handlers m;
         poll := match collected (cycle m) with
                 | Ok (s, p, v) => W_store_system s p v
                 | Raise e => W_store_error e
                 end |}
  | W_store_system s p v =>
      {| shared := set_system s (shared m); cycle := cycle m;
         handlers := handlers m; poll := W_store_pihole p v |}
  | W_store_pihole p v =>
      {| shared := set_pihole p (shared m); cycle := cycle m;
         handlers := handlers m; poll := W_store_pivpn v |}
  | W_store_pivpn v =>
      {| shared := set_pivpn v (shared m); cycle := cycle m;
         handlers := handlers m; poll := W_sleep |}
  | W_store_error e =>
      {| shared := set_last_error (exn_str e) (shared m); cycle := cycle m;
         handlers := handlers m; poll := W_sleep |}
  | W_sleep =>
      {| shared := shared m; cycle := S (cycle m); handlers := handlers m;
         poll := W_collect |}
  end.

Definition handler_step (st : state) (r : handler_pc) : handler_pc :=
  match r with
  | R_start => R_system (system st)
  | R_system s => R_pihole s (pihole st)
  | R_pihole s p => R_pivpn s p (pivpn st)
  | R_pivpn s p v =>
      R_done {| v_system := s; v_pihole := p; v_pivpn := v;
                v_last_error := last_error st |}
  | R_done w => R_done w
  end.

Definition step (m : machine) (a : action) : machine :=
  match a with
  | Poll => poll_step m
  | Accept =>
      {| shared := shared m; cycle := cycle m; poll := poll m;
         handlers := handlers m ++ [R_start] |}
  | Handler i =>
      {| shared := shared m; cycle := cycle m; poll := poll m;
         handlers := alter (handler_step (shared m)) i (handlers m) |}
  end.

Definition run (schedule : list action) (m : machine) : machine :=
  fold_left step schedule m.

(** The views of the handlers that have finished reading. *)
Definition views (m : machine) : list view :=
  omap (fun r => match r with R_done w => Some w | _ => None end) (handlers m).

(** A view as the specification wants it: the empty start, or the three
    values of one cycle. *)
Definition of_one_cycle (w : view) : Prop :=
  (v_system w = None /\ v_pihole w = None /\ v_pivpn w = None)
  \/ exists k s p v, collected k = Ok (s, p, v)
       /\ v_system w = Some s /\ v_pihole w = Some p /\ v_pivpn w = Some v.

(** What the code gives: every entry is whole, stored by some cycle. *)
Definition system_of_a_cycle (x : option system_stats) : Prop :=
  x = None \/ exists k s p v, collected k = Ok (s, p, v) /\ x = Some s.
Definition pihole_of_a_cycle (x : option pihole_stats) : Prop :=
  x = None \/ exists k s p v, collected k = Ok (s, p, v) /\ x = Some p.
Definition pivpn_of_a_cycle (x : option pivpn_stats) : Prop :=
  x = None \/ exists k s p v, collected k = Ok (s, p, v) /\ x = Some v.

Definition entrywise (w : view) : Prop :=
  system_of_a_cycle (v_system w) /\ pihole_of_a_cycle (v_pihole w)
  /\ pivpn_of_a_cycle (v_pivpn w).

(** What stays true along every run: the entries of [STATE], the values the
    poll thread is about to store and the values the handlers hold all come
    whole from some cycle. *)
Definition poll_sound (pc : poll_pc) : Prop :=
  match pc with
  | W_store_system s p v => exists k, collected k = Ok (s, p, v)
  | W_store_pihole p v => exists k s, collected k = Ok (s, p, v)
  | W_store_pivpn v => exists k s p, collected k = Ok (s, p, v)
  | W_collect | W_store_error _ | W_sleep => True
  end.

Definition handler_sound (r : handler_pc) : Prop :=
  match r with
  | R_start => True
  | R_system s => system_of_a_cycle s
  | R_pihole s p => system_of_a_cycle s /\ pihole_of_a_cycle p
  | R_pivpn s p v =>
      system_of_a_cycle s /\ pihole_of_a_cycle p /\ pivpn_of_a_cycle v
  | R_done w => entrywise w
  end.

Definition state_sound (st : state) : Prop :=
  system_of_a_cycle (system st) /\ pihole_of_a_cycle (pihole st)
  /\ pivpn_of_a_cycle (pivpn st).

Definition machine_sound (m : machine) : Prop :=
  state_sound (shared m) /\ poll_sound (poll m)
  /\ Forall handler_sound (handlers m).

End Interleaving.

(* ===================================================================== *)
(** ** Hosts to run the definitions on *)
(* ===================================================================== *)

Fixpoint table_get {K V} `{EqDecision K} (t : list (K * V)) (k : K) : option V :=
  match t with
  | [] => None
  | (k', v) :: rest => if decide (k' = k) then Some v else table_get rest k
  end.

(** The bytes of an ASCII text, as a command prints them. *)
Definition ascii_bytes (s : string) : bytes := list_byte_of_string s.

Definition exact_float (n : Z) : float :=
  SF2Prim (binary_normalize prec emax n 0 false).

(** [float(s)] on plain decimals [digits], [digits.digits]: the mantissa and
    the power of ten are exact doubles, so their quotient is the nearest
    double, which is what [float] returns.  Anything else is refused. *)
Fixpoint read_decimal (s : str) (mant : Z) (frac : option nat) (seen : bool)
    : option (Z * nat) :=
  match s with
  | [] => if seen then Some (mant, default 0%nat frac) else None
  | c :: r =>
      if ((48 <=? c) && (c <=? 57))%N
      then read_decimal r (10 * mant + (Z.of_N c - 48)) (S <$> frac) true
      else match frac with
           | None => if (c =? 46)%N then read_decimal r mant (Some 0%nat) seen
                     else None
           | Some _ => None
           end
  end.

Definition decimal_float (s : str) : option float :=
  match read_decimal s 0 None false with
  | Some (mant, k) =>
      if (mant <? 2 ^ 53) && (Nat.leb k 22)
      then Some (exact_float mant / exact_float (10 ^ Z.of_nat k))%float
      else None
  | None => None
  end.

(** [str(x)] on the doubles that are whole numbers below [2^53]; the other
    doubles, which no example prints, are shown as ["nan"]. *)
Definition whole_float_repr (x : float) : str :=
  match Prim2SF x with
  | S754_zero s => lit (if s then "-0.0" else "0.0")
  | S754_finite s m e =>
      let n := if 0 <=? e then Z.pos m * 2 ^ e else Z.pos m / 2 ^ (- e) in
      if (PrimFloat.eqb (exact_float n) (abs x)) && (n <? 2 ^ 53)
      then (if s then lit "-" else []) ++ str_of_int n ++ lit ".0"
      else lit "nan"
  | _ => lit "nan"
  end.

Definition not_found : exn :=
  mk_exn FileNotFoundError (lit "No such file or directory").
Definition exit_status (code : Z) : exn :=
  mk_exn CalledProcessError (lit "returned non-zero exit status " ++ str_of_int code).
Definition bad_json : exn :=
  mk_exn JSONDecodeError (lit "Expecting value: line 1 column 1 (char 0)").

(** A host given by tables: the answer of each command, the text of each
    file, what [json.loads] makes of each text, the clock and the CPU
    reading.  A command or a file that is not listed does not exist. *)
Definition table_host (now : str) (cpu : result float)
    (commands : list (list str * result bytes)) (files : list (str * str))
    (parses : list (str * json)) : host :=
  {| check_output cmd _ := default (Raise not_found) (table_get commands cmd);
     path_exists p := bool_decide (is_Some (table_get files p));
     read_text p :=
       match table_get files p with Some t => Ok t | None => Raise not_found end;
     psutil_cpu_percent := cpu;
     os_getloadavg := Ok (0.5, 0.25, 0.125)%float;
     psutil_virtual_memory :=
       Ok {| vm_total := 1024; vm_used := 512; vm_percent := 50%float |};
     psutil_disk_usage _ :=
       Ok {| du_total := 4096; du_used := 1024; du_percent := 25%float |};
     utcnow_isoformat := now;
     float_of_str := decimal_float;
     json_loads raw :=
       match table_get parses raw with Some v => Ok v | None => Raise bad_json end;
     float_repr := whole_float_repr |}.

Definition is_active_cmd (unit_name : string) : list str :=
  [lit "systemctl"; lit "is-active"; lit unit_name].
Definition active_reply : result bytes := Ok (ascii_bytes ("active" ++ String "010" EmptyString)).
Definition inactive_reply : result bytes := Raise (exit_status 3).


(* ===================================================================== *)
(** ** The notions the properties are stated with *)
(* ===================================================================== *)

(** The service manager reports the unit active: [systemctl is-active]
    exits with status zero and prints [active]. *)
Definition reported_active (h : host) (unit_name : str) : Prop :=
  exists out,
    check_output h [lit "systemctl"; lit "is-active"; unit_name] 5 = Ok out
    /\ strip (decode_utf8_ignore out) = lit "active".

Definition names_given (units : list str) : Prop :=
  Forall (fun u : str => u <> []) units.

(** [run_cmd] as the specification words it: the empty text on a failed
    command and on output that is not UTF-8, the captured output as text
    otherwise. *)
Definition run_cmd_as_claimed (h : host) (cmd : list str) (timeout : Z) : Prop :=
  match check_output h cmd timeout with
  | Raise _ => run_cmd h cmd timeout = Ok []
  | Ok out =>
      if valid_utf8 out
      then run_cmd h cmd timeout = Ok (decode_utf8_ignore out)
      else run_cmd h cmd timeout = Ok []
  end.

(** No white space in front. *)
Definition trimmed_left (s : str) : Prop :=
  match s with [] => True | c :: _ => isspace c = false end.

(** A line that is not empty: it holds something else than white space. *)
Definition has_content (l : str) : bool :=
  existsb (fun c => negb (isspace c)) l.

Definition nonempty_line_count (raw : str) : Z :=
  Z.of_nat (List.length (List.filter has_content (splitlines raw))).

(** Hosts of the examples. *)
Definition garbled_host : host :=
  table_host (lit "2024-01-01T00:00:00") (Ok 1%float)
    [([lit "echo"], Ok [Byte.xff; Byte.x6f; Byte.x6b])] [] [].

Definition newline_host : host :=
  table_host (lit "2024-01-01T00:00:00") (Ok 1%float)
    [([lit "echo"], active_reply)] [] [].

(** Two configured units, of which only the second is active. *)
Definition ab_config : config :=
  {| POLL_INTERVAL := 10;
     PIHOLE_SERVICES := [];
     PIVPN_SERVICES := [lit "a.service"; lit "b.service"] |}.

Definition ab_host : host :=
  table_host (lit "2024-01-01T00:00:00") (Ok 1%float)
    [(is_active_cmd "a.service", inactive_reply);
     (is_active_cmd "b.service", active_reply)] [] [].

(** The client list of the examples: three header lines and two clients;
    and a list cut after two lines. *)
Definition five_lines : string :=
  "::: Connected Clients List :::" ++ String "010" (
  "Name  Remote IP  Virtual IP  Bytes Received  Bytes Sent  Last Seen" ++ String "010" (
  "---------------------------------------------------------------" ++ String "010" (
  "phone  203.0.113.7:51820  10.6.0.2  12KiB  48KiB  Jan 01 2024" ++ String "010" (
  "laptop  203.0.113.9:51820  10.6.0.3  1MiB  9MiB  Jan 01 2024" ++ String "010" EmptyString)))).

Definition two_lines : string :=
  "::: Connected Clients List :::" ++ String "010" (
  "Name  Remote IP  Virtual IP  Bytes Received  Bytes Sent  Last Seen" ++ String "010" EmptyString).

Definition pivpn_host (listing : string) : host :=
  table_host (lit "2024-01-01T00:00:00") (Ok 1%float)
    [([lit "pivpn"; lit "-c"], Ok (ascii_bytes listing))] [] [].

(** Pi-hole status outputs: one that is no JSON, one that is a JSON list,
    one that is a JSON object with a key outside the four read. *)
Definition pihole_cmd : list str := [lit "pihole"; lit "-c"; lit "-j"].

Definition pihole_host (output : string) (parses : list (str * json)) : host :=
  table_host (lit "2024-01-01T00:00:00") (Ok 1%float)
    [(pihole_cmd, Ok (ascii_bytes output));
     (is_active_cmd "pihole-FTL.service", active_reply)] [] parses.

Definition status_object : json :=
  JDict [(lit "domains_being_blocked", JInt 120000);
         (lit "dns_queries_today", JInt 9000);
         (lit "ads_blocked_today", JInt 450);
         (lit "ads_percentage_today", JFloat 5%float);
         (lit "unique_clients", JInt 7)].

(** The candidate path [p] exists, can be read, and its text is the
    number [x]. *)
Definition reads_as (h : host) (p : str) (x : float) : Prop :=
  path_exists h p = true
  /\ exists txt, read_text h p = Ok txt /\ float_of_str h (strip txt) = Some x.

(** [p] is the first path of [paths] that reads as a number. *)
Definition first_reading (h : host) (paths : list str) (p : str) (x : float) : Prop :=
  exists before after,
    paths = before ++ p :: after
    /\ reads_as h p x
    /\ forall q y, In q before -> ~ reads_as h q y.

(** A host whose first thermal path holds the given text. *)
Definition thermal_host (reading : string) : host :=
  table_host (lit "2024-01-01T00:00:00") (Ok 1%float) []
    [(lit "/sys/class/thermal/thermal_zone0/temp", lit reading)] [].

(** A host whose first thermal path holds no number and whose second holds
    the given text. *)
Definition hwmon_host (reading : string) : host :=
  table_host (lit "2024-01-01T00:00:00") (Ok 1%float) []
    [(lit "/sys/class/thermal/thermal_zone0/temp", lit "n/a");
     (lit "/sys/class/hwmon/hwmon0/temp1_input", lit reading)] [].

(** A host on which every collector succeeds, at a given time, with the
    Pi-hole unit active or not. *)
Definition calm_host (now : string) (pihole_up : bool) : host :=
  table_host (lit now) (Ok 1%float)
    [(is_active_cmd "pihole-FTL.service",
      if pihole_up then active_reply else inactive_reply)] [] [].

(** A host on which [psutil.cpu_percent] fails. *)
Definition broken_host : host :=
  table_host (lit "2024-01-01T00:00:00")
    (Raise (mk_exn OSError (lit "boom"))) [] [] [].

(** A successful cycle as the specification words it: one swap of the
    whole snapshot, after which every field, [last_error] included, is the
    one of this cycle, which had no error. *)
Definition swapped_whole (s : system_stats) (p : pihole_stats)
    (v : pivpn_stats) : state :=
  {| system := Some s; pihole := Some p; pivpn := Some v; last_error := None |}.

(** A line of the metric feed for the metric [name]. *)
Definition metric_line (name : string) (line : str) : Prop :=
  exists value, line = lit name ++ lit " " ++ value.

Fixpoint starts_with (prefix line : str) : bool :=
  match prefix, line with
  | [], _ => true
  | a :: prefix', b :: line' => (a =? b)%N && starts_with prefix' line'
  | _ :: _, [] => false
  end.

(** The text ends with one line feed, not two. *)
Definition one_final_newline (body : str) : Prop :=
  exists text c, body = text ++ [c] ++ NL /\ c <> 10%N.

(** No value of [stats] is an integer too large for a double. *)
Definition stats_convertible (stats : gmap str json) : Prop :=
  forall k n, stats !! k = Some (JInt n) -> ~ raises (float_of_int n).

(** A Pi-hole whose status object counts [10^400] queries: the text it
    prints, and the object [json.loads] makes of it. *)
Definition googol4 : Z := 10 ^ 400.

Definition quote : string := String (ascii_of_nat 34) EmptyString.

Definition huge_output : string :=
  "{" ++ quote ++ "dns_queries_today" ++ quote ++ ": "
  ++ NilEmpty.string_of_int (Z.to_int googol4) ++ "}".

Definition huge_host : host :=
  table_host (lit "2024-01-01T00:00:00") (Ok 1%float)
    [(pihole_cmd, Ok (ascii_bytes huge_output));
     (is_active_cmd "pihole-FTL.service", active_reply)] []
    [(lit huge_output, JDict [(lit "dns_queries_today", JInt googol4)])].

Definition huge_state : state := update_iteration CONFIG huge_host STATE.

(** The gauges that are always due. *)
Definition steady_gauges : list string :=
  ["pi_cpu_percent"; "pi_load1"; "pi_load5"; "pi_load15"; "pi_mem_percent";
   "pi_disk_percent"]%string.

(** Two cycles that collect different values: the clock has moved and the
    Pi-hole unit has come up. *)
Definition two_cycles (k : nat)
    : result (system_stats * pihole_stats * pivpn_stats) :=
  let h := match k with
           | O => calm_host "2024-01-01T00:00:00" false
           | S _ => calm_host "2024-01-01T00:00:10" true
           end in
  collect_cycle (collect_system_stats h) (collect_pihole_stats CONFIG h)
                (collect_pivpn_stats CONFIG h).

(** The first cycle runs to its end; the second stores [system]; a request
    arrives and its handler reads everything before the poll thread
    goes on. *)
Definition torn_schedule : list action :=
  [Poll; Poll; Poll; Poll; Poll;
   Poll; Poll;
   Accept; Handler 0; Handler 0; Handler 0; Handler 0].

Definition torn_view : view :=
  {| v_system :=
       system (update_loop CONFIG [calm_host "2024-01-01T00:00:00" false;
                                   calm_host "2024-01-01T00:00:10" true] STATE);
     v_pihole :=
       pihole (update_iteration CONFIG (calm_host "2024-01-01T00:00:00" false) STATE);
     v_pivpn :=
       pivpn (update_iteration CONFIG (calm_host "2024-01-01T00:00:00" false) STATE);
     v_last_error := None |}.

(* ===================================================================== *)
(** ** Further notions: the helpers and the system collector *)
(* ===================================================================== *)

(** A token of [s.split()]: not empty, and free of white space. *)
Definition is_token (t : str) : Prop :=
  t <> [] /\ forallb (fun c => negb (isspace c)) t = true.

(** [/proc/uptime] can be read and its first field is the number [x]. *)
Definition uptime_reading (h : host) (x : float) : Prop :=
  exists txt first rest,
    read_text h (lit "/proc/uptime") = Ok txt
    /\ split txt = first :: rest
    /\ float_of_str h first = Some x.

(** A host with a thermal zone and an uptime counter. *)
Definition board_host (uptime : string) : host :=
  table_host (lit "2024-01-01T00:00:00") (Ok 1%float) []
    [(lit "/sys/class/thermal/thermal_zone0/temp", lit "45000");
     (lit "/proc/uptime", lit uptime)] [].

(* ===================================================================== *)
(** ** Further notions: the poll loop over many cycles *)
(* ===================================================================== *)

(** What the three collectors give on a host, in the order of the loop. *)
Definition cycle_result (cfg : config) (h : host)
    : result (system_stats * pihole_stats * pivpn_stats) :=
  collect_cycle (collect_system_stats h) (collect_pihole_stats cfg h)
                (collect_pivpn_stats cfg h).

Definition cycle_succeeds (cfg : config) (h : host) : Prop :=
  exists t, cycle_result cfg h = Ok t.

Definition cycle_fails (cfg : config) (h : host) : Prop :=
  raises (cycle_result cfg h).

(* ===================================================================== *)
(** ** Further notions: the interleaving *)
(* ===================================================================== *)

Definition is_poll (a : action) : bool :=
  match a with Poll => true | Accept | Handler _ => false end.

(** The poll thread has stored a part of a cycle and not yet the rest. *)
Definition mid_store (pc : poll_pc) : bool :=
  match pc with
  | W_store_pihole _ _ | W_store_pivpn _ => true
  | W_collect | W_store_system _ _ _ | W_store_error _ | W_sleep => false
  end.

(** What a handler that starts now and is not overtaken will read. *)
Definition snapshot (st : state) : view :=
  {| v_system := system st; v_pihole := pihole st; v_pivpn := pivpn st;
     v_last_error := last_error st |}.

Section Quiescence.

Variable collected : nat -> result (system_stats * pihole_stats * pivpn_stats).

(** The poll thread's steps through cycle [k], taken alone: five when the
    collectors return, three when one raises. *)
Definition polls_of_cycle (k : nat) : list action :=
  match collected k with
  | Ok _ => [Poll; Poll; Poll; Poll; Poll]
  | Raise _ => [Poll; Poll; Poll]
  end.

Definition polls_of_cycles (n : nat) : list action :=
  flat_map polls_of_cycle (seq 0 n).

(** What holds of [STATE] at each point of the poll thread: whole between
    cycles, and in the middle of the stores the new part belongs with what
    is about to be stored. *)
Definition stores_in_step (m : machine) : Prop :=
  match poll m with
  | W_store_system s p v =>
      of_one_cycle collected (snapshot (shared m))
      /\ exists k, collected k = Ok (s, p, v)
  | W_store_pihole p v =>
      exists k s, collected k = Ok (s, p, v) /\ system (shared m) = Some s
  | W_store_pivpn v =>
      exists k s p, collected k = Ok (s, p, v)
                    /\ system (shared m) = Some s /\ pihole (shared m) = Some p
  | W_collect | W_store_error _ | W_sleep =>
      of_one_cycle collected (snapshot (shared m))
  end.

End Quiescence.

(* ===================================================================== *)
(** ** Further notions: the projections *)
(* ===================================================================== *)

(** Some unit of the list is reported active. *)
Definition some_unit_active (h : host) (units : list str) : Prop :=
  exists u, In u units /\ reported_active h u.

(** The line of the feed for the Pi-hole key [k] with the number [x]. *)
Definition stat_line (h : host) (k : str) (x : float) : str :=
  lit "pihole_" ++ k ++ lit " " ++ float_repr h x.

(** The value stored under [k] is there, is not [None], and [float] turns
    it into [x]. *)
Definition stat_reads (h : host) (stats : gmap str json) (k : str) (x : float)
    : Prop :=
  exists v, stats !! k = Some v /\ v <> JNull /\ py_float h v = Ok x.

(** The value stored under [k] is an integer too large for a double. *)
Definition stat_overflows (stats : gmap str json) (k : str) : Prop :=
  exists n, stats !! k = Some (JInt n) /\ raises (float_of_int n).

Definition no_linebreak (s : str) : Prop :=
  forallb (fun c => negb (is_linebreak c)) s = true.

(** A state whose Pi-hole values are of every kind: a number, a numeric
    text, a text that is no number, a truth value. *)
Definition mixed_state : state :=
  {| system := None;
     pihole := Some {| pihole_service_ok := true;
                       stats := <[lit "dns_queries_today" := JInt 9000]>
                                (<[lit "ads_blocked_today" := JStr (lit "450")]>
                                 (<[lit "ads_percentage_today" := JStr (lit "n/a")]>
                                  (<[lit "domains_being_blocked" := JBool true]> ∅))) |};
     pivpn := Some {| pivpn_service_ok := false; connected_clients := Some 2 |};
     last_error := None |}.

(** White space only. *)
Definition blank (s : str) : Prop := forallb isspace s = true.

(** Neither the first nor the last code point is white space. *)
Definition trimmed (s : str) : Prop := trimmed_left s /\ trimmed_left (rev s).

(** A host that prints whole numbers, on which the Pi-hole status command
    prints text with white space around it. *)
Definition padded_host : host :=
  table_host (lit "2024-01-01T00:00:00") (Ok 1%float)
    [(pihole_cmd, Ok (ascii_bytes "  {}  "))] [] [(lit "{}", status_object)].

(* ===================================================================== *)
(** ** Text: [strip] *)
(* ===================================================================== *)

Lemma lstrip_nil_iff (s : str) : lstrip s = [] <-> forallb isspace s = true.
Proof.
  induction s as [|c r IH]; simpl; [tauto|].
  destruct (isspace c); simpl; [exact IH|]. split; discriminate.
Qed.

Lemma forallb_lstrip (s : str) :
  forallb isspace (lstrip s) = forallb isspace s.
Proof.
  induction s as [|c r IH]; simpl; [reflexivity|].
  destruct (isspace c) eqn:E; simpl; [exact IH|]. now rewrite E.
Qed.

Lemma forallb_rev_eq {A} (f : A -> bool) (l : list A) :
  forallb f (rev l) = forallb f l.
Proof.
  induction l as [|a l IH]; simpl; [reflexivity|].
  rewrite forallb_app, IH. simpl. rewrite andb_true_r. apply andb_comm.
Qed.

Lemma rev_nil_iff {A} (l : list A) : rev l = [] <-> l = [].
Proof.
  split; intros H; [|now subst].
  apply (f_equal (@rev A)) in H. now rewrite rev_involutive in H.
Qed.

Lemma strip_nil_iff (s : str) : strip s = [] <-> forallb isspace s = true.
Proof.
  unfold strip, rstrip.
  rewrite rev_nil_iff, lstrip_nil_iff, forallb_rev_eq, forallb_lstrip.
  tauto.
Qed.

Lemma has_content_forallb (l : str) : has_content l = negb (forallb isspace l).
Proof.
  unfold has_content. induction l as [|c r IH]; simpl; [reflexivity|].
  rewrite IH. now destruct (isspace c).
Qed.

(** A line passes the filter [if l.strip()] exactly when it has content. *)
Lemma strip_truthy (l : str) :
  match strip l with [] => false | _ => true end = has_content l.
Proof.
  rewrite has_content_forallb.
  destruct (strip l) eqn:E.
  - apply strip_nil_iff in E. now rewrite E.
  - destruct (forallb isspace l) eqn:F; [|reflexivity].
    apply strip_nil_iff in F. congruence.
Qed.

Lemma lstrip_trimmed (s : str) : trimmed_left (lstrip s).
Proof.
  induction s as [|c r IH]; simpl; [exact I|].
  destruct (isspace c) eqn:E; [exact IH|exact E].
Qed.

Lemma lstrip_of_trimmed (s : str) : trimmed_left s -> lstrip s = s.
Proof. destruct s as [|c r]; simpl; [reflexivity|]. now intros ->. Qed.

Lemma lstrip_keeps_last (l : str) (c : N) :
  isspace c = false -> exists l', lstrip (l ++ [c]) = l' ++ [c].
Proof.
  intros Hc. induction l as [|a l IH]; simpl.
  - rewrite Hc. now exists [].
  - destruct (isspace a); [exact IH|]. now exists (a :: l).
Qed.

Lemma rstrip_trimmed (s : str) : trimmed_left s -> trimmed_left (rstrip s).
Proof.
  destruct s as [|c r]; simpl; [exact (fun H => H)|]. intros Hc.
  unfold rstrip. simpl rev.
  destruct (lstrip_keeps_last (rev r) c Hc) as [l' ->].
  rewrite rev_app_distr. exact Hc.
Qed.

Lemma rstrip_idem (s : str) : rstrip (rstrip s) = rstrip s.
Proof.
  unfold rstrip. rewrite rev_involutive.
  now rewrite (lstrip_of_trimmed _ (lstrip_trimmed _)).
Qed.

(** Stripping twice is stripping once. *)
Lemma strip_idem (s : str) : strip (strip s) = strip s.
Proof.
  unfold strip at 1.
  rewrite (lstrip_of_trimmed (strip s)).
  - unfold strip. apply rstrip_idem.
  - apply rstrip_trimmed, lstrip_trimmed.
Qed.

(* ===================================================================== *)
(** ** [run_cmd] *)
(* ===================================================================== *)

Lemma run_cmd_eq (h : host) (cmd : list str) (timeout : Z) :
  run_cmd h cmd timeout =
  Ok match check_output h cmd timeout with
     | Ok out => strip (decode_utf8_ignore out)
     | Raise _ => []
     end.
Proof. unfold run_cmd. now destruct (check_output h cmd timeout). Qed.

(** C8, as the code has it: [run_cmd] never raises; a command that fails in
    any way (non-zero exit status, timeout, missing binary, any other
    exception) gives the empty text; a command that succeeds gives its
    output decoded as UTF-8 with the bytes that do not decode dropped, and
    with the white space at both ends stripped. *)
Theorem run_cmd_fallback (h : host) (cmd : list str) (timeout : Z) :
  ~ raises (run_cmd h cmd timeout)
  /\ (forall e, check_output h cmd timeout = Raise e ->
        run_cmd h cmd timeout = Ok [])
  /\ (forall out, check_output h cmd timeout = Ok out ->
        run_cmd h cmd timeout = Ok (strip (decode_utf8_ignore out)))
  /\ (forall s, run_cmd h cmd timeout = Ok s -> strip s = s).
Proof.
  rewrite run_cmd_eq. repeat split.
  - intros [e He]. discriminate.
  - now intros e ->.
  - now intros out ->.
  - intros s [= <-]. destruct (check_output h cmd timeout); [|reflexivity].
    apply strip_idem.
Qed.

Lemma run_cmd_fallback_witness :
  run_cmd newline_host [lit "echo"] 5 = Ok (lit "active")
  /\ run_cmd newline_host [lit "true"] 5 = Ok [].
Proof.
  pose proof (run_cmd_fallback newline_host [lit "echo"] 5) as (_ & _ & Hok & _).
  pose proof (run_cmd_fallback newline_host [lit "true"] 5) as (_ & Hfail & _).
  split.
  - exact (Hok _ eq_refl).
  - exact (Hfail _ eq_refl).
Defined.

(** C8, as the specification words it, fails twice: output that is not
    UTF-8 does not give the empty text (the byte [ff] is dropped and [ok]
    is returned), and output that is UTF-8 is not returned as captured (the
    final line feed of [active] is stripped). *)
Lemma run_cmd_claim_fails :
  ~ run_cmd_as_claimed garbled_host [lit "echo"] 5
  /\ ~ run_cmd_as_claimed newline_host [lit "echo"] 5.
Proof. split; vm_compute; discriminate. Qed.

(* ===================================================================== *)
(** ** Liveness *)
(* ===================================================================== *)

Lemma service_active_spec (h : host) (u : str) :
  exists b, service_active h u = Ok b
            /\ (b = true <-> u <> [] /\ reported_active h u).
Proof.
  destruct u as [|c r].
  - exists false. split; [reflexivity|]. split; [discriminate|]. now intros [? _].
  - unfold service_active. rewrite run_cmd_eq. cbn [bind].
    unfold reported_active.
    destruct (check_output h _ 5) as [out|e] eqn:E.
    + eexists. split; [reflexivity|]. rewrite strip_idem.
      unfold str_eqb. rewrite bool_decide_eq_true. split.
      * intros Heq. split; [discriminate|]. now exists out.
      * intros (_ & out' & [= <-] & Heq). exact Heq.
    + eexists. split; [reflexivity|]. split.
      * vm_compute. discriminate.
      * intros (_ & out' & Hout & _). discriminate.
Qed.

Lemma any_active_spec (h : host) (units : list str) :
  exists ok, any_of (service_active h) units = Ok ok
             /\ (ok = true <->
                 exists u, In u units /\ u <> [] /\ reported_active h u).
Proof.
  induction units as [|u rest (ok & Hok & IH)]; cbn [any_of].
  - exists false. split; [reflexivity|]. split; [discriminate|]. now intros (? & [] & _).
  - destruct (service_active_spec h u) as (b & -> & Hb). cbn [bind].
    destruct b.
    + exists true. split; [reflexivity|]. split; [|reflexivity]. intros _.
      exists u. split; [now left|]. now apply Hb.
    + exists ok. split; [exact Hok|]. rewrite IH. split.
      * intros (u' & Hin & Hu'). exists u'. split; [now right|exact Hu'].
      * intros (u' & [<-|Hin] & Hu').
        -- apply Hb in Hu'. discriminate.
        -- now exists u'.
Qed.

Lemma any_active_named (h : host) (units : list str) :
  names_given units ->
  exists ok, any_of (service_active h) units = Ok ok
             /\ (ok = true <-> exists u, In u units /\ reported_active h u).
Proof.
  intros Hn. destruct (any_active_spec h units) as (ok & Hok & Hiff).
  exists ok. split; [exact Hok|]. rewrite Hiff. split.
  - intros (u & Hin & _ & Hu). now exists u.
  - intros (u & Hin & Hu). exists u. repeat split; [exact Hin| |exact Hu].
    unfold names_given in Hn. rewrite Forall_forall in Hn.
    apply Hn. now apply list_elem_of_In.
Qed.

(** C9: for every configured list of unit names, both collectors return
    (they do not raise) and their [service_ok] is true exactly when the
    service manager reports at least one unit of the list active. *)
Theorem liveness_or (cfg : config) (h : host) :
  names_given (PIHOLE_SERVICES cfg) ->
  names_given (PIVPN_SERVICES cfg) ->
  exists ph pv,
    collect_pihole_stats cfg h = Ok ph
    /\ collect_pivpn_stats cfg h = Ok pv
    /\ (pihole_service_ok ph = true <->
        exists u, In u (PIHOLE_SERVICES cfg) /\ reported_active h u)
    /\ (pivpn_service_ok pv = true <->
        exists u, In u (PIVPN_SERVICES cfg) /\ reported_active h u).
Proof.
  intros Hph Hpv.
  destruct (any_active_named h _ Hph) as (okh & Hokh & Hiffh).
  destruct (any_active_named h _ Hpv) as (okv & Hokv & Hiffv).
  unfold collect_pihole_stats, collect_pivpn_stats.
  rewrite Hokh, Hokv, !run_cmd_eq. cbn [bind].
  eexists. eexists. split; [reflexivity|]. split; [reflexivity|].
  cbn [pihole_service_ok pivpn_service_ok]. now split.
Qed.

Lemma liveness_or_witness :
  exists ph pv,
    collect_pihole_stats ab_config ab_host = Ok ph
    /\ collect_pivpn_stats ab_config ab_host = Ok pv
    /\ (pihole_service_ok ph = true <->
        exists u, In u (PIHOLE_SERVICES ab_config) /\ reported_active ab_host u)
    /\ (pivpn_service_ok pv = true <->
        exists u, In u (PIVPN_SERVICES ab_config) /\ reported_active ab_host u).
Proof.
  apply (liveness_or ab_config ab_host).
  - constructor.
  - repeat constructor; discriminate.
Defined.

(** The list [a.service, b.service] with only [b.service] active gives
    true; the empty list gives false. *)
Example liveness_or_ab :
  collect_pivpn_stats ab_config ab_host
  = Ok {| pivpn_service_ok := true; connected_clients := None |}
  /\ any_of (service_active ab_host) (PIHOLE_SERVICES ab_config) = Ok false.
Proof. split; vm_compute; reflexivity. Qed.

(* ===================================================================== *)
(** ** The VPN client count *)
(* ===================================================================== *)

Lemma client_lines_count (raw : str) :
  Z.of_nat (List.length (client_lines raw)) = nonempty_line_count raw.
Proof.
  unfold client_lines, nonempty_line_count.
  now rewrite (List.filter_ext _ _ strip_truthy).
Qed.

Lemma count_clients_eq (raw : str) :
  count_clients raw =
  if 3 <? nonempty_line_count raw
  then Some (nonempty_line_count raw - 3) else None.
Proof.
  unfold count_clients. rewrite client_lines_count.
  destruct raw; reflexivity.
Qed.

(** C3: whatever [pivpn -c] printed, [connected_clients] is the number of
    non-empty lines minus the three header lines when there are more than
    three non-empty lines, and is absent otherwise; it is never zero or
    negative. *)
Theorem client_count (cfg : config) (h : host) (raw : str) :
  run_cmd h [lit "pivpn"; lit "-c"] 5 = Ok raw ->
  exists r,
    collect_pivpn_stats cfg h = Ok r
    /\ (3 < nonempty_line_count raw ->
        connected_clients r = Some (nonempty_line_count raw - 3))
    /\ (nonempty_line_count raw <= 3 -> connected_clients r = None)
    /\ (raw = [] -> connected_clients r = None)
    /\ (forall n, connected_clients r = Some n -> 0 < n).
Proof.
  intros Hraw. unfold collect_pivpn_stats.
  destruct (any_active_spec h (PIVPN_SERVICES cfg)) as (ok & -> & _).
  rewrite Hraw. cbn [bind]. eexists. split; [reflexivity|].
  cbn [connected_clients]. rewrite count_clients_eq.
  destruct (Z.ltb_spec 3 (nonempty_line_count raw)) as [Hlt|Hle].
  - split; [|split; [|split]].
    + intros _. reflexivity.
    + lia.
    + intros ->. vm_compute in Hlt. discriminate.
    + intros n [= <-]. lia.
  - split; [|split; [|split]]; try reflexivity; try lia. intros n. discriminate.
Qed.

Lemma client_count_witness :
  exists r,
    collect_pivpn_stats CONFIG (pivpn_host five_lines) = Ok r
    /\ connected_clients r = Some 2.
Proof.
  destruct (client_count CONFIG (pivpn_host five_lines)
              (strip (lit five_lines)) eq_refl) as (r & Hr & Hmore & _).
  exists r. split; [exact Hr|]. apply Hmore. reflexivity.
Defined.

(** Three header lines and two clients give 2; two lines give no count. *)
Example client_count_examples :
  count_clients (strip (lit five_lines)) = Some 2
  /\ count_clients (strip (lit two_lines)) = None
  /\ collect_pivpn_stats CONFIG (pivpn_host two_lines)
     = Ok {| pivpn_service_ok := false; connected_clients := None |}.
Proof. repeat split; vm_compute; reflexivity. Qed.

(* ===================================================================== *)
(** ** The Pi-hole statistics *)
(* ===================================================================== *)

Lemma fill_stats_dict (items : list (str * json)) (keys : list str)
    (acc : gmap str json) :
  fill_stats (JDict items) keys acc
  = (foldl (fun m k => <[k := default JNull (assoc_get items k)]> m) acc keys,
     None).
Proof.
  revert acc. induction keys as [|k rest IH]; intros acc; cbn; [reflexivity|].
  apply IH.
Qed.

Lemma fill_stats_dom (data : json) (keys : list str) (acc : gmap str json) :
  dom (fst (fill_stats data keys acc)) ⊆ dom acc ∪ list_to_set keys.
Proof.
  revert acc. induction keys as [|k rest IH]; intros acc; cbn [fill_stats].
  - cbn. set_solver.
  - destruct (json_get data k) as [v|e]; cbn [fst].
    + pose proof (IH (<[k:=v]> acc)) as Hsub. rewrite dom_insert_L in Hsub.
      intros x Hx. apply Hsub in Hx. set_unfold. tauto.
    + set_solver.
Qed.

Lemma parse_pihole_stats_dom (h : host) (raw : str) :
  dom (parse_pihole_stats h raw) ⊆ list_to_set pihole_keys.
Proof.
  unfold parse_pihole_stats. destruct raw as [|c r]; [set_solver|].
  destruct (json_loads h (c :: r)) as [data|e]; [|set_solver].
  etransitivity; [apply fill_stats_dom|]. set_solver.
Qed.

(** What a parsed object leaves in [stats]: each of the four keys, with the
    value of the object or [None]; nothing else. *)
Lemma parse_pihole_stats_object (h : host) (raw : str) (items : list (str * json)) :
  raw <> [] -> json_loads h raw = Ok (JDict items) ->
  forall k, parse_pihole_stats h raw !! k
            = if bool_decide (In k pihole_keys)
              then Some (default JNull (assoc_get items k)) else None.
Proof.
  intros Hne Hload k. unfold parse_pihole_stats.
  destruct raw as [|c r]; [congruence|]. rewrite Hload, fill_stats_dict.
  cbn [fst foldl pihole_keys].
  case_bool_decide as Hin.
  - cbn in Hin. destruct Hin as [<-|[<-|[<-|[<-|[]]]]];
      repeat (first [ rewrite lookup_insert_eq; reflexivity
                    | rewrite lookup_insert_ne by (vm_compute; discriminate) ]).
  - cbn in Hin.
    rewrite !lookup_insert_ne by (intros <-; apply Hin; tauto).
    apply lookup_empty.
Qed.

(** C7: [collect_pihole_stats] never raises; its [service_ok] is the result
    of the liveness check whatever the status command printed; empty output
    and output that [json.loads] rejects give an empty [stats]; and [stats]
    never holds a key outside the four allowed. *)
Theorem pihole_stats_tolerant (cfg : config) (h : host) (raw : str) :
  run_cmd h [lit "pihole"; lit "-c"; lit "-j"] 5 = Ok raw ->
  exists r ok,
    collect_pihole_stats cfg h = Ok r
    /\ any_of (service_active h) (PIHOLE_SERVICES cfg) = Ok ok
    /\ pihole_service_ok r = ok
    /\ (raw = [] \/ raises (json_loads h raw) -> stats r = ∅)
    /\ dom (stats r) ⊆ list_to_set pihole_keys.
Proof.
  intros Hraw. unfold collect_pihole_stats.
  destruct (any_active_spec h (PIHOLE_SERVICES cfg)) as (ok & Hok & _).
  rewrite Hok, Hraw. cbn [bind]. eexists. exists ok.
  split; [reflexivity|]. split; [reflexivity|]. split; [reflexivity|].
  cbn [stats]. split; [|apply parse_pihole_stats_dom].
  unfold parse_pihole_stats. intros [->|[e He]]; [reflexivity|].
  rewrite He. now destruct raw.
Qed.

Lemma pihole_stats_tolerant_witness :
  exists r,
    collect_pihole_stats CONFIG (pihole_host "<html>busy</html>" []) = Ok r
    /\ pihole_service_ok r = true /\ stats r = ∅.
Proof.
  destruct (pihole_stats_tolerant CONFIG (pihole_host "<html>busy</html>" [])
              (lit "<html>busy</html>") eq_refl)
    as (r & ok & Hr & Hok & Hsvc & Hempty & _).
  exists r. split; [exact Hr|]. split.
  - rewrite Hsvc. injection Hok as <-. reflexivity.
  - apply Hempty. right. eexists. reflexivity.
Defined.

(** A JSON list has no [get]: [stats] stays empty.  A JSON object leaves
    the four keys and drops the others. *)
Example pihole_stats_examples :
  parse_pihole_stats (pihole_host "[1]" [(lit "[1]", JList [JInt 1])]) (lit "[1]") = ∅
  /\ dom (parse_pihole_stats (pihole_host "{}" [(lit "{}", status_object)]) (lit "{}"))
     = list_to_set pihole_keys.
Proof. split; vm_compute; reflexivity. Qed.

(* ===================================================================== *)
(** ** The temperature *)
(* ===================================================================== *)

Lemma read_temp_spec (h : host) (p : str) :
  path_exists h p = true ->
  match read_temp h p with
  | Ok t => exists x, reads_as h p x
                      /\ t = if (200 <? x)%float then (x / 1000)%float else x
  | Raise _ => forall x, ~ reads_as h p x
  end.
Proof.
  intros Hex. unfold read_temp, reads_as, float_or_raise.
  destruct (read_text h p) as [txt|e] eqn:Hread; cbn [bind].
  - destruct (float_of_str h (strip txt)) as [x|] eqn:Hx; cbn [bind].
    + exists x. split; [|reflexivity]. split; [exact Hex|]. now exists txt.
    + intros x (_ & txt' & [= <-] & Hx'). congruence.
  - intros x (_ & txt' & Hread' & _). discriminate.
Qed.

Lemma reads_as_functional (h : host) (p : str) (x y : float) :
  reads_as h p x -> reads_as h p y -> x = y.
Proof.
  intros (_ & tx & Hx & Hfx) (_ & ty & Hy & Hfy).
  rewrite Hx in Hy. injection Hy as <-. congruence.
Qed.

Lemma temp_from_first (h : host) (paths : list str) (p : str) (x : float) :
  first_reading h paths p x ->
  get_cpu_temp_c_from h paths
  = Some (if (200 <? x)%float then (x / 1000)%float else x).
Proof.
  intros (before & after & -> & Hp & Hbefore).
  induction before as [|q before IH]; cbn [app get_cpu_temp_c_from].
  - destruct Hp as (Hex & Hrest). rewrite Hex.
    pose proof (read_temp_spec h p Hex) as Hspec.
    destruct (read_temp h p) as [t|e].
    + destruct Hspec as (x' & Hx' & ->).
      now rewrite (reads_as_functional h p x x' (conj Hex Hrest) Hx').
    + exfalso. exact (Hspec x (conj Hex Hrest)).
  - assert (Hq : forall y, ~ reads_as h q y) by (intros y; apply Hbefore; now left).
    assert (IH' := IH (fun q' y Hin => Hbefore q' y (or_intror Hin))).
    destruct (path_exists h q) eqn:Hex; [|exact IH'].
    pose proof (read_temp_spec h q Hex) as Hspec.
    destruct (read_temp h q) as [t|e]; [|exact IH'].
    destruct Hspec as (y & Hy & _). exfalso. exact (Hq y Hy).
Qed.

Lemma temp_from_none (h : host) (paths : list str) :
  (forall p x, In p paths -> ~ reads_as h p x) ->
  get_cpu_temp_c_from h paths = None.
Proof.
  induction paths as [|q rest IH]; intros Hno; cbn [get_cpu_temp_c_from];
    [reflexivity|].
  assert (IH' := IH (fun p x Hin => Hno p x (or_intror Hin))).
  destruct (path_exists h q) eqn:Hex; [|exact IH'].
  pose proof (read_temp_spec h q Hex) as Hspec.
  destruct (read_temp h q) as [t|e]; [|exact IH'].
  destruct Hspec as (y & Hy & _). exfalso. exact (Hno q y (or_introl eq_refl) Hy).
Qed.

(** C4: [get_cpu_temp_c] never raises.  When a candidate path is the first
    to read as a number [x], the temperature is [x / 1000] if [x] exceeds
    200 and [x] itself otherwise; when no candidate path reads as a number,
    the temperature is absent. *)
Theorem cpu_temp (h : host) :
  ~ raises (get_cpu_temp_c h)
  /\ (forall p x, first_reading h thermal_paths p x ->
        ((200 <? x)%float = true ->
           get_cpu_temp_c h = Ok (Some (x / 1000)%float))
        /\ ((200 <? x)%float = false -> get_cpu_temp_c h = Ok (Some x)))
  /\ ((forall p x, In p thermal_paths -> ~ reads_as h p x) ->
        get_cpu_temp_c h = Ok None).
Proof.
  unfold get_cpu_temp_c. split; [|split].
  - intros [e He]. discriminate.
  - intros p x Hfirst. rewrite (temp_from_first h _ p x Hfirst).
    split; intros ->; reflexivity.
  - intros Hno. now rewrite (temp_from_none h _ Hno).
Qed.

Lemma cpu_temp_witness :
  get_cpu_temp_c (thermal_host "45000") = Ok (Some 45%float)
  /\ get_cpu_temp_c (thermal_host "n/a") = Ok None.
Proof.
  pose proof (cpu_temp (thermal_host "45000")) as (_ & Hread & _).
  pose proof (cpu_temp (thermal_host "n/a")) as (_ & _ & Hnone).
  split.
  - apply (Hread (lit "/sys/class/thermal/thermal_zone0/temp") 45000%float).
    + exists [], [lit "/sys/class/hwmon/hwmon0/temp1_input"].
      split; [reflexivity|]. split; [|intros q y []].
      split; [reflexivity|]. exists (lit "45000"). split; reflexivity.
    + reflexivity.
  - apply Hnone. intros p x [<-|[<-|[]]] (Hex & txt & Hread' & Hnum).
    + injection Hread' as <-. discriminate Hnum.
    + discriminate Hex.
Defined.

(** [45000] gives 45.0 and [45.0] stays 45.0; at the threshold, [199.9] and
    [200] are kept, [200.1] is divided; a second path is read when the
    first holds no number. *)
Example cpu_temp_examples :
  get_cpu_temp_c (thermal_host "45000") = Ok (Some 45%float)
  /\ get_cpu_temp_c (thermal_host "45.0") = Ok (Some 45%float)
  /\ get_cpu_temp_c (thermal_host "199.9") = Ok (Some 199.9%float)
  /\ get_cpu_temp_c (thermal_host "200") = Ok (Some 200%float)
  /\ get_cpu_temp_c (thermal_host "200.1") = Ok (Some (200.1 / 1000)%float)
  /\ get_cpu_temp_c (hwmon_host "45000") = Ok (Some 45%float).
Proof. repeat split; vm_compute; reflexivity. Qed.

(* ===================================================================== *)
(** ** The health projection *)
(* ===================================================================== *)

Lemma bool_to_status_cases (ok : option bool) :
  (bool_to_status ok = lit "OK" <-> ok = Some true)
  /\ (bool_to_status ok = lit "DOWN" <-> ok = Some false)
  /\ (bool_to_status ok = lit "UNKNOWN" <-> ok = None).
Proof.
  destruct ok as [[|]|]; cbn; repeat split; intros H;
    first [reflexivity | discriminate H | (vm_compute in H; discriminate H)].
Qed.

(** C5: in every state, a service is shown [OK] exactly when its
    [service_ok] is true, [DOWN] exactly when it is false, [UNKNOWN] exactly
    when it is absent; [overall_ok] holds exactly when both are true; and
    the state the process starts with is rendered, with both services
    [UNKNOWN], [overall_ok] false and every number absent. *)
Theorem health_classification :
  (forall st : state,
     let ph := get pihole_service_ok (pihole st) in
     let pv := get pivpn_service_ok (pivpn st) in
     (h_pihole_status (handle_health st) = lit "OK" <-> ph = Some true)
     /\ (h_pihole_status (handle_health st) = lit "DOWN" <-> ph = Some false)
     /\ (h_pihole_status (handle_health st) = lit "UNKNOWN" <-> ph = None)
     /\ (h_pivpn_status (handle_health st) = lit "OK" <-> pv = Some true)
     /\ (h_pivpn_status (handle_health st) = lit "DOWN" <-> pv = Some false)
     /\ (h_pivpn_status (handle_health st) = lit "UNKNOWN" <-> pv = None)
     /\ (h_overall_ok (handle_health st) = true <->
         ph = Some true /\ pv = Some true))
  /\ handle_health STATE
     = {| h_system := {| hs_cpu_percent := None; hs_mem_percent := None;
                         hs_disk_percent := None; hs_temp_c := None;
                         hs_uptime_seconds := None |};
          h_pihole_status := lit "UNKNOWN";
          h_pihole_stats := ∅;
          h_pivpn_status := lit "UNKNOWN";
          h_pivpn_connected_clients := None;
          h_overall_ok := false;
          h_last_update := None;
          h_last_error := None |}.
Proof.
  split; [|reflexivity].
  intros st ph pv. cbn [handle_health h_pihole_status h_pivpn_status h_overall_ok].
  fold ph pv.
  destruct (bool_to_status_cases ph) as (? & ? & ?).
  destruct (bool_to_status_cases pv) as (? & ? & ?).
  repeat (split; [assumption|]).
  rewrite andb_true_iff.
  destruct ph as [[|]|], pv as [[|]|]; cbn; intuition congruence.
Qed.

(* ===================================================================== *)
(** ** The poll loop *)
(* ===================================================================== *)

Lemma collect_cycle_raises (c_sys : result system_stats)
    (c_ph : result pihole_stats) (c_pv : result pivpn_stats) :
  raises c_sys \/ raises c_ph \/ raises c_pv ->
  raises (collect_cycle c_sys c_ph c_pv).
Proof.
  unfold raises, collect_cycle.
  destruct c_sys as [s|e1]; cbn [bind]; [|now exists e1].
  destruct c_ph as [p|e2]; cbn [bind]; [|now exists e2].
  destruct c_pv as [v|e3]; cbn [bind]; [|now exists e3].
  intros [[e H]|[[e H]|[e H]]]; discriminate.
Qed.

(** C10: when a collector raises, the cycle stores nothing but
    [last_error], which becomes the text of the exception; the entries
    [system], [pihole] and [pivpn] are the ones of before. *)
Theorem faulted_cycle (c_sys : result system_stats)
    (c_ph : result pihole_stats) (c_pv : result pivpn_stats) (st : state) :
  raises c_sys \/ raises c_ph \/ raises c_pv ->
  exists e,
    collect_cycle c_sys c_ph c_pv = Raise e
    /\ poll_cycle c_sys c_ph c_pv st = set_last_error (exn_str e) st
    /\ system (poll_cycle c_sys c_ph c_pv st) = system st
    /\ pihole (poll_cycle c_sys c_ph c_pv st) = pihole st
    /\ pivpn (poll_cycle c_sys c_ph c_pv st) = pivpn st
    /\ last_error (poll_cycle c_sys c_ph c_pv st) = Some (exn_str e).
Proof.
  intros Hr. destruct (collect_cycle_raises _ _ _ Hr) as [e He].
  exists e. unfold poll_cycle. rewrite He. now repeat split.
Qed.

Lemma faulted_cycle_witness :
  exists e,
    collect_cycle (collect_system_stats broken_host)
      (collect_pihole_stats CONFIG broken_host)
      (collect_pivpn_stats CONFIG broken_host) = Raise e
    /\ update_iteration CONFIG broken_host STATE
       = set_last_error (exn_str e) STATE.
Proof.
  destruct (faulted_cycle (collect_system_stats broken_host)
              (collect_pihole_stats CONFIG broken_host)
              (collect_pivpn_stats CONFIG broken_host) STATE)
    as (e & He & Hst & _).
  - left. eexists. reflexivity.
  - exists e. split; [exact He|exact Hst].
Defined.

(** C2, as the code has it: a successful cycle stores the three values it
    collected under [system], [pihole] and [pivpn], one item assignment
    after the other, and leaves [last_error] as it was. *)
Theorem successful_cycle (c_sys : result system_stats)
    (c_ph : result pihole_stats) (c_pv : result pivpn_stats) (st : state)
    (s : system_stats) (p : pihole_stats) (v : pivpn_stats) :
  collect_cycle c_sys c_ph c_pv = Ok (s, p, v) ->
  c_sys = Ok s /\ c_ph = Ok p /\ c_pv = Ok v
  /\ poll_cycle c_sys c_ph c_pv st
     = set_pivpn v (set_pihole p (set_system s st))
  /\ system (poll_cycle c_sys c_ph c_pv st) = Some s
  /\ pihole (poll_cycle c_sys c_ph c_pv st) = Some p
  /\ pivpn (poll_cycle c_sys c_ph c_pv st) = Some v
  /\ last_error (poll_cycle c_sys c_ph c_pv st) = last_error st.
Proof.
  intros Hc. unfold poll_cycle. rewrite Hc.
  unfold collect_cycle in Hc.
  destruct c_sys as [s'|?]; [|discriminate].
  destruct c_ph as [p'|?]; [|discriminate].
  destruct c_pv as [v'|?]; [|discriminate].
  cbn in Hc. injection Hc as -> -> ->. now repeat split.
Qed.

Lemma successful_cycle_witness :
  exists s p v,
    system (update_iteration CONFIG (calm_host "2024-01-01T00:00:10" true) STATE)
    = Some s
    /\ pihole (update_iteration CONFIG (calm_host "2024-01-01T00:00:10" true) STATE)
       = Some p
    /\ pivpn (update_iteration CONFIG (calm_host "2024-01-01T00:00:10" true) STATE)
       = Some v.
Proof.
  set (h := calm_host "2024-01-01T00:00:10" true).
  destruct (collect_cycle (collect_system_stats h) (collect_pihole_stats CONFIG h)
              (collect_pivpn_stats CONFIG h)) as [[[s p] v]|e] eqn:Hc.
  - destruct (successful_cycle _ _ _ STATE s p v Hc)
      as (_ & _ & _ & _ & Hs & Hp & Hv & _).
    exists s, p, v. now repeat split.
  - exfalso. vm_compute in Hc. discriminate Hc.
Defined.

(** C2, as the specification words it, fails: the cycle after a failed one
    succeeds and still shows the error of the failed one. *)
Lemma wholesale_claim_fails :
  exists s p v,
    collect_cycle
      (collect_system_stats (calm_host "2024-01-01T00:00:10" true))
      (collect_pihole_stats CONFIG (calm_host "2024-01-01T00:00:10" true))
      (collect_pivpn_stats CONFIG (calm_host "2024-01-01T00:00:10" true))
    = Ok (s, p, v)
    /\ update_loop CONFIG [broken_host; calm_host "2024-01-01T00:00:10" true] STATE
       <> swapped_whole s p v
    /\ last_error
         (update_loop CONFIG [broken_host; calm_host "2024-01-01T00:00:10" true] STATE)
       = Some (lit "boom").
Proof.
  eexists. eexists. eexists. split; [vm_compute; reflexivity|]. split.
  - intros H. apply (f_equal last_error) in H. vm_compute in H. discriminate H.
  - vm_compute. reflexivity.
Qed.

(* ===================================================================== *)
(** ** The metric feed *)
(* ===================================================================== *)

(** C6 at a state the poll loop can store: when Pi-hole reports an integer
    beyond the range of a double, [float(v)] raises [OverflowError], which
    [except (ValueError, TypeError)] lets through: [handle_metrics] raises
    and no line is sent, the six gauges that are always due included. *)
Theorem metrics_overflow :
  (exists p, pihole huge_state = Some p
             /\ stats p !! lit "dns_queries_today" = Some (JInt googol4))
  /\ handle_metrics huge_host huge_state
     = Raise (mk_exn OverflowError (lit "int too large to convert to float")).
Proof.
  split.
  - eexists. split; [vm_compute; reflexivity|]. vm_compute. reflexivity.
  - vm_compute. reflexivity.
Qed.

(** What holds of the feed in the other states: as long as no Pi-hole value
    is such an integer, [handle_metrics] returns, and its lines follow the
    emission rule. *)

Lemma starts_with_app (prefix rest : str) : starts_with prefix (prefix ++ rest) = true.
Proof.
  induction prefix as [|a p IH]; cbn; [reflexivity|].
  now rewrite N.eqb_refl, IH.
Qed.

Lemma metric_line_prefix (name : string) (line : str) :
  metric_line name line -> starts_with (lit name ++ lit " ") line = true.
Proof. intros [value ->]. rewrite app_assoc. apply starts_with_app. Qed.

Lemma stat_lines_ok (h : host) (stats : gmap str json) (k : str) :
  stats_convertible stats ->
  exists ls, stat_lines h stats k = Ok ls
             /\ Forall (fun l => starts_with (lit "pihole_") l = true) ls.
Proof.
  intros Hconv. unfold stat_lines.
  destruct (stats !! k) as [v|] eqn:Hk; [|now exists []].
  destruct v as [|b|n|f|s|items|items]; cbn [py_float bind try_except_only];
    try (now exists []);
    try (eexists; split; [reflexivity|]; repeat constructor; fail).
  - destruct (float_of_int n) as [f|e] eqn:Hf.
    + eexists; split; [reflexivity|]; repeat constructor.
    + exfalso. apply (Hconv k n Hk). now exists e.
  - destruct (float_of_str h s); cbn.
    + eexists; split; [reflexivity|]; repeat constructor.
    + now exists [].
Qed.

Lemma stats_lines_ok (h : host) (stats : gmap str json) (keys : list str) :
  stats_convertible stats ->
  exists ls, stats_lines h stats keys = Ok ls
             /\ Forall (fun l => starts_with (lit "pihole_") l = true) ls.
Proof.
  intros Hconv. induction keys as [|k rest (more & Hmore & Hall)]; cbn [stats_lines].
  - now exists [].
  - destruct (stat_lines_ok h stats k Hconv) as (here & -> & Hhere).
    rewrite Hmore. cbn [bind]. exists (here ++ more).
    split; [reflexivity|]. now apply Forall_app.
Qed.

Lemma join_snoc (sep : str) (parts : list str) (x : str) :
  exists front, join sep (parts ++ [x]) = front ++ x.
Proof.
  induction parts as [|p rest (front & IH)].
  - now exists [].
  - cbn [app join]. destruct (rest ++ [x]) as [|y more] eqn:E.
    + now destruct rest.
    + rewrite IH. exists (p ++ sep ++ front). now rewrite <- !app_assoc.
Qed.

Lemma string_of_uint_last (d : Decimal.uint) :
  d <> Decimal.Nil ->
  exists front c, lit (NilEmpty.string_of_uint d) = front ++ [c] /\ c <> 10%N.
Proof.
  induction d as [|d IH|d IH|d IH|d IH|d IH|d IH|d IH|d IH|d IH|d IH];
    intros Hne; [congruence|..];
    (destruct (Decimal.uint_eq_dec d Decimal.Nil) as [->|Hd];
     [ eexists [], _; split; [reflexivity|discriminate]
     | destruct (IH Hd) as (front & c & Hfront & Hc);
       eexists (_ :: front), c; split; [|exact Hc];
       cbn [NilEmpty.string_of_uint]; unfold lit in *;
       cbn [list_ascii_of_string List.map]; now rewrite Hfront ]).
Qed.

Lemma str_of_int_last (n : Z) :
  exists front c, str_of_int n = front ++ [c] /\ c <> 10%N.
Proof.
  unfold str_of_int. destruct n as [|p|p]; cbn [Z.to_int NilEmpty.string_of_int].
  - eexists [], _. split; [reflexivity|discriminate].
  - apply string_of_uint_last, Unsigned.to_uint_nonnil.
  - destruct (string_of_uint_last _ (Unsigned.to_uint_nonnil p))
      as (front & c & Hfront & Hc).
    eexists (_ :: front), c. split; [|exact Hc].
    unfold lit in *. cbn [list_ascii_of_string List.map]. now rewrite Hfront.
Qed.

Lemma starts_with_comparable (p q l : str) :
  starts_with p l = true -> starts_with q l = true ->
  starts_with p q = true \/ starts_with q p = true.
Proof.
  revert q l. induction p as [|a p IH]; intros q l Hp Hq; [now left|].
  destruct q as [|b q]; [now right|].
  destruct l as [|c l]; [discriminate|]. cbn in *.
  apply andb_true_iff in Hp as [Ha Hp]. apply andb_true_iff in Hq as [Hb Hq].
  apply N.eqb_eq in Ha, Hb. subst.
  rewrite N.eqb_refl. cbn. exact (IH q l Hp Hq).
Qed.

Lemma ends_without_newline_app (a b : str) (c : N) (front : str) :
  b = front ++ [c] -> c <> 10%N ->
  exists text c', (a ++ b) ++ NL = text ++ [c'] ++ NL /\ c' <> 10%N.
Proof.
  intros -> Hc. exists (a ++ front), c. split; [|exact Hc].
  now rewrite <- !app_assoc.
Qed.

Lemma metrics_emission (h : host) (st : state) :
  stats_convertible (default ∅ (get stats (pihole st))) ->
  exists lines,
    metrics_lines h st = Ok lines
    /\ handle_metrics h st = Ok (join NL lines ++ NL)
    /\ ((exists l, In l lines /\ metric_line "pi_temp_c" l)
        <-> is_Some (get_opt temp_c (system st)))
    /\ ((exists l, In l lines /\ metric_line "pi_uptime_seconds" l)
        <-> is_Some (get_opt uptime_seconds (system st)))
    /\ (forall name, In name steady_gauges ->
          exists l, In l lines /\ metric_line name l)
    /\ (system st = None ->
        forall name, In name steady_gauges -> In (lit name ++ lit " 0") lines)
    /\ one_final_newline (join NL lines ++ NL).
Proof.
  intros Hconv. unfold handle_metrics, metrics_lines.
  destruct (stats_lines_ok h _ pihole_keys Hconv) as (pl & -> & Hpl).
  cbn [bind]. eexists. split; [reflexivity|]. split; [reflexivity|].
  assert (Hclash : forall name l,
             starts_with (lit "pihole_") (lit name ++ lit " ") = false ->
             starts_with (lit name ++ lit " ") (lit "pihole_") = false ->
             In l pl -> metric_line name l -> False).
  { intros name l H1 H2 Hin Hl. apply metric_line_prefix in Hl.
    rewrite Forall_forall in Hpl. apply list_elem_of_In, Hpl in Hin.
    destruct (starts_with_comparable _ _ _ Hin Hl); congruence. }
  split; [|split; [|split; [|split]]].
  - split.
    + intros (l & Hin & Hl).
      destruct (get_opt temp_c (system st)); [now eexists|]. exfalso.
      rewrite !in_app_iff in Hin. cbn [In] in Hin.
      pose proof (metric_line_prefix _ _ Hl) as Hpre.
      destruct Hin as [[[<-|[<-|[<-|[<-|[<-|[<-|[]]]]]]]|[[]|Hu]]|[[<-|[]]|[Hp|[[<-|[]]|Hc]]]];
        try discriminate Hpre.
      * destruct (get_opt uptime_seconds (system st)); [|destruct Hu].
        destruct Hu as [<-|[]]. discriminate Hpre.
      * exact (Hclash "pi_temp_c"%string l eq_refl eq_refl Hp Hl).
      * destruct (get_opt connected_clients (pivpn st)); [|destruct Hc].
        destruct Hc as [<-|[]]. discriminate Hpre.
    + intros [t Ht]. rewrite Ht. eexists. split.
      * rewrite !in_app_iff. left. right. left. now left.
      * now eexists.
  - split.
    + intros (l & Hin & Hl).
      destruct (get_opt uptime_seconds (system st)); [now eexists|]. exfalso.
      rewrite !in_app_iff in Hin. cbn [In] in Hin.
      pose proof (metric_line_prefix _ _ Hl) as Hpre.
      destruct Hin as [[[<-|[<-|[<-|[<-|[<-|[<-|[]]]]]]]|[Ht|[]]]|[[<-|[]]|[Hp|[[<-|[]]|Hc]]]];
        try discriminate Hpre.
      * destruct (get_opt temp_c (system st)); [|destruct Ht].
        destruct Ht as [<-|[]]. discriminate Hpre.
      * exact (Hclash "pi_uptime_seconds"%string l eq_refl eq_refl Hp Hl).
      * destruct (get_opt connected_clients (pivpn st)); [|destruct Hc].
        destruct Hc as [<-|[]]. discriminate Hpre.
    + intros [t Ht]. rewrite Ht. eexists. split.
      * rewrite !in_app_iff. left. right. right. now left.
      * now eexists.
  - intros name Hname. cbn in Hname.
    destruct Hname as [<-|[<-|[<-|[<-|[<-|[<-|[]]]]]]];
      (eexists; split; cycle 1;
       [ unfold metric_line; eexists; reflexivity
       | rewrite !in_app_iff; left; left; unfold gauge; cbn [In];
         repeat (first [left; reflexivity | right]) ]).
  - intros Hsys name Hname. rewrite Hsys. cbn in Hname.
    rewrite !in_app_iff. left. left.
    destruct Hname as [<-|[<-|[<-|[<-|[<-|[<-|[]]]]]]]; cbn; tauto.
  - unfold one_final_newline.
    match goal with
    | |- context [join NL (?A ++ ?B ++ pl ++ ?C ++ ?D)] =>
        replace (A ++ B ++ pl ++ C ++ D) with ((A ++ B ++ pl) ++ C ++ D)
          by (now rewrite <- !app_assoc)
    end.
    destruct (get_opt connected_clients (pivpn st)) as [n|].
    + rewrite (app_assoc _ [_] [_]).
      match goal with
      | |- context [join NL (?L ++ [?x])] =>
          destruct (join_snoc NL L x) as (front & ->)
      end.
      destruct (str_of_int_last n) as (pre & c & Hpre & Hc).
      eapply ends_without_newline_app; [|exact Hc].
      rewrite Hpre. now rewrite app_assoc.
    + rewrite app_nil_r.
      match goal with
      | |- context [join NL (?L ++ [?x])] =>
          destruct (join_snoc NL L x) as (front & ->)
      end.
      unfold ok_gauge.
      destruct (str_of_int_last
                  (match get pivpn_service_ok (pivpn st) with
                   | Some true => 1 | _ => 0 end)) as (pre & c & Hpre & Hc).
      eapply ends_without_newline_app; [|exact Hc].
      rewrite Hpre. now rewrite !app_assoc.
Qed.

(* ===================================================================== *)
(** ** The poll thread against the request handlers *)
(* ===================================================================== *)

Section InterleavingFacts.

Variable collected : nat -> result (system_stats * pihole_stats * pivpn_stats).

Lemma poll_step_sound (m : machine) :
  machine_sound collected m -> machine_sound collected (poll_step collected m).
Proof.
  intros ((Hs & Hp & Hv) & Hpoll & Hh). unfold poll_step, machine_sound, state_sound.
  destruct (poll m) as [|s p v|p v|v|e|] eqn:Hpc; cbn in Hpoll |- *.
  - split; [now repeat split|]. split; [|exact Hh].
    destruct (collected (cycle m)) as [[[s p] v]|e] eqn:Hc; cbn; [|exact I].
    now exists (cycle m).
  - destruct Hpoll as [k Hk].
    split; [|split; [now exists k, s|exact Hh]].
    split; [|now split]. right. now exists k, s, p, v.
  - destruct Hpoll as (k & s & Hk).
    split; [|split; [now exists k, s, p|exact Hh]].
    split; [exact Hs|]. split; [|exact Hv]. right. now exists k, s, p, v.
  - destruct Hpoll as (k & s & p & Hk).
    split; [|split; [exact I|exact Hh]].
    split; [exact Hs|]. split; [exact Hp|]. right. now exists k, s, p, v.
  - split; [now repeat split|]. split; [exact I|exact Hh].
  - split; [now repeat split|]. split; [exact I|exact Hh].
Qed.

Lemma handler_step_sound (st : state) (r : handler_pc) :
  state_sound collected st -> handler_sound collected r ->
  handler_sound collected (handler_step st r).
Proof.
  intros (Hs & Hp & Hv) Hr. destruct r; cbn in *; try tauto.
  destruct Hr as (? & ? & ?). now repeat split.
Qed.

Lemma step_sound (m : machine) (a : action) :
  machine_sound collected m -> machine_sound collected (step collected m a).
Proof.
  intros Hm. destruct a as [| |i]; cbn [step].
  - now apply poll_step_sound.
  - destruct Hm as (Hst & Hpoll & Hh). repeat split; try apply Hst; try exact Hpoll.
    cbn. apply Forall_app. split; [exact Hh|]. now repeat constructor.
  - destruct Hm as (Hst & Hpoll & Hh). split; [exact Hst|]. split; [exact Hpoll|].
    cbn. apply Forall_alter; [exact Hh|].
    intros r _ Hr. now apply handler_step_sound.
Qed.

Lemma run_sound (schedule : list action) (m : machine) :
  machine_sound collected m -> machine_sound collected (run collected schedule m).
Proof.
  revert m. induction schedule as [|a rest IH]; intros m Hm; [exact Hm|].
  cbn. apply IH. now apply step_sound.
Qed.

Lemma boot_sound : machine_sound collected boot.
Proof. repeat split; cbn; first [now left | constructor]. Qed.

(** Left alone, the poll thread does what [poll_cycle] says: five steps
    for a cycle that succeeds, three for one that fails. *)
Lemma poll_thread_alone (m : machine) (s : system_stats) (p : pihole_stats)
    (v : pivpn_stats) :
  poll m = W_collect -> collected (cycle m) = Ok (s, p, v) ->
  run collected [Poll; Poll; Poll; Poll; Poll] m
  = {| shared := set_pivpn v (set_pihole p (set_system s (shared m)));
       cycle := S (cycle m); poll := W_collect; handlers := handlers m |}.
Proof.
  intros Hpc Hc. cbn. unfold poll_step at 5. rewrite Hpc, Hc. reflexivity.
Qed.

Lemma poll_thread_alone_failing (m : machine) (e : exn) :
  poll m = W_collect -> collected (cycle m) = Raise e ->
  run collected [Poll; Poll; Poll] m
  = {| shared := set_last_error (exn_str e) (shared m);
       cycle := S (cycle m); poll := W_collect; handlers := handlers m |}.
Proof.
  intros Hpc Hc. cbn. unfold poll_step at 3. rewrite Hpc, Hc. reflexivity.
Qed.

End InterleavingFacts.

(** C1, as the code has it: whatever the collectors return and however the
    poll thread and any number of handlers are interleaved, each of the
    three entries a handler has read is either the empty one of the start
    or the one stored by some cycle, whole. *)
Theorem reads_are_entrywise
    (collected : nat -> result (system_stats * pihole_stats * pivpn_stats))
    (schedule : list action) (w : view) :
  In w (views (run collected schedule boot)) -> entrywise collected w.
Proof.
  intros Hin. apply list_elem_of_In in Hin.
  unfold views in Hin. apply list_elem_of_omap in Hin as (r & Hr & Hw).
  destruct (run_sound collected schedule boot (boot_sound collected))
    as (_ & _ & Hh).
  rewrite Forall_forall in Hh. specialize (Hh r Hr).
  destruct r; try discriminate. injection Hw as <-. exact Hh.
Qed.

Lemma torn_view_read :
  views (run two_cycles torn_schedule boot) = [torn_view].
Proof. vm_compute. reflexivity. Qed.

Lemma reads_are_entrywise_witness : entrywise two_cycles torn_view.
Proof.
  apply (reads_are_entrywise two_cycles torn_schedule torn_view).
  rewrite torn_view_read. now left.
Defined.

(** C1, as the specification words it, fails: a handler that reads between
    two stores of the second cycle gets the [system] entry of the second
    cycle with the [pihole] entry of the first. *)
Lemma no_tearing_fails :
  In torn_view (views (run two_cycles torn_schedule boot))
  /\ ~ of_one_cycle two_cycles torn_view.
Proof.
  split; [rewrite torn_view_read; now left|].
  intros [(Hs & _)|(k & s & p & v & Hk & Hs & Hp & _)].
  - vm_compute in Hs. discriminate Hs.
  - destruct k as [|k].
    + vm_compute in Hk. injection Hk as <- <- <-.
      vm_compute in Hs. discriminate Hs.
    + vm_compute in Hk. injection Hk as <- <- <-.
      vm_compute in Hp. discriminate Hp.
Qed.

(* ===================================================================== *)
(** ** Further properties: the helpers and the system collector *)
(* ===================================================================== *)

Lemma split_from_tokens (cur s : str) :
  forallb (fun c => negb (isspace c)) cur = true ->
  Forall is_token (split_from cur s).
Proof.
  revert cur. induction s as [|c r IH]; intros cur Hcur; cbn [split_from].
  - destruct cur; [constructor|]. constructor; [|constructor].
    split; [discriminate|exact Hcur].
  - destruct (isspace c) eqn:Hc.
    + destruct cur as [|a cur'].
      * now apply IH.
      * constructor; [split; [discriminate|exact Hcur]|]. now apply IH.
    + apply IH. rewrite forallb_app, Hcur. cbn. now rewrite Hc.
Qed.

Lemma split_from_nil_iff (cur s : str) :
  split_from cur s = [] <-> cur = [] /\ forallb isspace s = true.
Proof.
  revert cur. induction s as [|c r IH]; intros cur; cbn [split_from forallb].
  - destruct cur; split; intros H; try discriminate; try tauto.
    now destruct H.
  - destruct (isspace c) eqn:Hc; cbn [andb].
    + destruct cur as [|a cur'].
      * rewrite IH. tauto.
      * split; [discriminate|]. now intros [? _].
    + rewrite IH. split; [|now intros [_ ?]].
      intros [Hnil _]. now destruct cur.
Qed.

(** X1: [get_uptime_seconds] never raises.  It gives the number that the
    first white-space-separated field of [/proc/uptime] reads as, and
    nothing when the file cannot be read, is blank, or starts with a field
    that is no number. *)
Theorem uptime_seconds_spec (h : host) :
  exists r,
    get_uptime_seconds h = Ok r
    /\ (forall x, r = Some x <-> uptime_reading h x)
    /\ (raises (read_text h (lit "/proc/uptime")) -> r = None)
    /\ (forall txt, read_text h (lit "/proc/uptime") = Ok txt ->
          forallb isspace txt = true -> r = None)
    /\ (forall txt first rest, read_text h (lit "/proc/uptime") = Ok txt ->
          split txt = first :: rest ->
          is_token first /\ r = float_of_str h first).
Proof.
  unfold get_uptime_seconds, uptime_reading, float_or_raise.
  destruct (read_text h (lit "/proc/uptime")) as [txt|e] eqn:Hread; cbn.
  - destruct (split txt) as [|first rest] eqn:Hsplit; cbn.
    + exists None. split; [reflexivity|]. split; [|split; [|split]].
      * intros x. split; [discriminate|].
        intros (t & f & r & [= <-] & Hs & _). congruence.
      * reflexivity.
      * reflexivity.
      * intros t f r [= <-]. congruence.
    + assert (Htok : is_token first).
      { pose proof (split_from_tokens [] txt eq_refl) as Hall.
        fold (split txt) in Hall. rewrite Hsplit in Hall. now inversion Hall. }
      destruct (float_of_str h first) as [x|] eqn:Hx; cbn.
      * exists (Some x). split; [reflexivity|]. split; [|split; [|split]].
        -- intros y. split.
           ++ intros [= <-]. now exists txt, first, rest.
           ++ intros (t & f & r & [= <-] & Hs & Hf).
              rewrite Hsplit in Hs. injection Hs as <- <-. congruence.
        -- intros [e He]. discriminate.
        -- intros t [= <-] Hblank.
           assert (split txt = []) by (apply split_from_nil_iff; now split).
           congruence.
        -- intros t f r [= <-] Hs. rewrite Hsplit in Hs.
           injection Hs as <- <-. now rewrite Hx.
      * exists None. split; [reflexivity|]. split; [|split; [|split]].
        -- intros y. split; [discriminate|].
           intros (t & f & r & [= <-] & Hs & Hf).
           rewrite Hsplit in Hs. injection Hs as <- <-. congruence.
        -- reflexivity.
        -- reflexivity.
        -- intros t f r [= <-] Hs. rewrite Hsplit in Hs.
           injection Hs as <- <-. now rewrite Hx.
  - exists None. split; [reflexivity|]. split; [|split; [|split]].
    + intros x. split; [discriminate|]. intros (t & f & r & Ht & _). discriminate.
    + reflexivity.
    + intros t Ht. discriminate.
    + intros t f r Ht. discriminate.
Qed.

Lemma uptime_seconds_spec_witness :
  get_uptime_seconds (board_host "35.5 12.25") = Ok (Some 35.5%float)
  /\ get_uptime_seconds (board_host "   ") = Ok None.
Proof.
  destruct (uptime_seconds_spec (board_host "35.5 12.25"))
    as (r & Hr & _ & _ & _ & Hfirst).
  destruct (uptime_seconds_spec (board_host "   "))
    as (r' & Hr' & _ & _ & Hblank & _).
  split.
  - rewrite Hr. f_equal.
    exact (proj2 (Hfirst (lit "35.5 12.25") (lit "35.5") [lit "12.25"]
                    eq_refl eq_refl)).
  - rewrite Hr'. f_equal. exact (Hblank (lit "   ") eq_refl eq_refl).
Defined.




(* ===================================================================== *)
(** ** Further properties: the poll loop over many cycles *)
(* ===================================================================== *)

Lemma update_loop_app (cfg : config) (hs hs' : list host) (st : state) :
  update_loop cfg (hs ++ hs') st = update_loop cfg hs' (update_loop cfg hs st).
Proof. unfold update_loop. apply fold_left_app. Qed.

Lemma update_loop_cons (cfg : config) (h : host) (hs : list host) (st : state) :
  update_loop cfg (h :: hs) st = update_loop cfg hs (update_iteration cfg h st).
Proof. reflexivity. Qed.

Lemma update_iteration_ok (cfg : config) (h : host) (st : state)
    (s : system_stats) (p : pihole_stats) (v : pivpn_stats) :
  cycle_result cfg h = Ok (s, p, v) ->
  update_iteration cfg h st
  = {| system := Some s; pihole := Some p; pivpn := Some v;
       last_error := last_error st |}.
Proof.
  unfold cycle_result, update_iteration, poll_cycle. now intros ->.
Qed.

Lemma update_iteration_raise (cfg : config) (h : host) (st : state) (e : exn) :
  cycle_result cfg h = Raise e ->
  update_iteration cfg h st
  = {| system := system st; pihole := pihole st; pivpn := pivpn st;
       last_error := Some (exn_str e) |}.
Proof.
  unfold cycle_result, update_iteration, poll_cycle. now intros ->.
Qed.

Lemma failing_cycles_keep_entries (cfg : config) (hs : list host) (st : state) :
  Forall (cycle_fails cfg) hs ->
  system (update_loop cfg hs st) = system st
  /\ pihole (update_loop cfg hs st) = pihole st
  /\ pivpn (update_loop cfg hs st) = pivpn st.
Proof.
  intros Hall. revert st. induction Hall as [|h hs [e He] _ IH]; intros st.
  - now repeat split.
  - rewrite update_loop_cons. destruct (IH (update_iteration cfg h st)) as (-> & -> & ->).
    now rewrite (update_iteration_raise cfg h st e He).
Qed.

Lemma successful_cycles_keep_error (cfg : config) (hs : list host) (st : state) :
  Forall (cycle_succeeds cfg) hs ->
  last_error (update_loop cfg hs st) = last_error st.
Proof.
  intros Hall. revert st. induction Hall as [|h hs [[[s p] v] Ht] _ IH]; intros st.
  - reflexivity.
  - rewrite update_loop_cons, IH.
    now rewrite (update_iteration_ok cfg h st s p v Ht).
Qed.

(** X3: after any number of cycles, from any state, the three entries are
    those collected by the last cycle that succeeded, however many cycles
    failed after it. *)
Theorem loop_serves_last_success (cfg : config) (before after : list host)
    (h : host) (st : state) (s : system_stats) (p : pihole_stats)
    (v : pivpn_stats) :
  cycle_result cfg h = Ok (s, p, v) ->
  Forall (cycle_fails cfg) after ->
  system (update_loop cfg (before ++ h :: after) st) = Some s
  /\ pihole (update_loop cfg (before ++ h :: after) st) = Some p
  /\ pivpn (update_loop cfg (before ++ h :: after) st) = Some v.
Proof.
  intros Hok Hfail. rewrite update_loop_app, update_loop_cons.
  destruct (failing_cycles_keep_entries cfg after
              (update_iteration cfg h (update_loop cfg before st)) Hfail)
    as (-> & -> & ->).
  now rewrite (update_iteration_ok cfg h _ s p v Hok).
Qed.

Lemma loop_serves_last_success_witness :
  exists p,
    pihole (update_loop CONFIG
              [calm_host "2024-01-01T00:00:00" false;
               calm_host "2024-01-01T00:00:10" true; broken_host] STATE)
    = Some p
    /\ pihole_service_ok p = true.
Proof.
  destruct (cycle_result CONFIG (calm_host "2024-01-01T00:00:10" true))
    as [[[s p] v]|e] eqn:Hc; [|exfalso; vm_compute in Hc; discriminate Hc].
  destruct (loop_serves_last_success CONFIG
              [calm_host "2024-01-01T00:00:00" false] [broken_host]
              (calm_host "2024-01-01T00:00:10" true) STATE s p v Hc)
    as (_ & Hp & _).
  - constructor; [|constructor]. eexists. vm_compute. reflexivity.
  - exists p. split; [exact Hp|].
    vm_compute in Hc. injection Hc as _ <- _. reflexivity.
Defined.

(** X4: [last_error] is the text of the exception of the last cycle that
    failed, however many cycles succeeded after it; no cycle removes it. *)
Theorem loop_keeps_last_error (cfg : config) (before after : list host)
    (h : host) (st : state) (e : exn) :
  cycle_result cfg h = Raise e ->
  Forall (cycle_succeeds cfg) after ->
  last_error (update_loop cfg (before ++ h :: after) st) = Some (exn_str e).
Proof.
  intros Hraise Hok. rewrite update_loop_app, update_loop_cons.
  rewrite (successful_cycles_keep_error cfg after _ Hok).
  now rewrite (update_iteration_raise cfg h _ e Hraise).
Qed.

Lemma loop_keeps_last_error_witness :
  last_error (update_loop CONFIG
                [broken_host; calm_host "2024-01-01T00:00:10" true;
                 calm_host "2024-01-01T00:00:20" true] STATE)
  = Some (lit "boom").
Proof.
  apply (loop_keeps_last_error CONFIG []
           [calm_host "2024-01-01T00:00:10" true;
            calm_host "2024-01-01T00:00:20" true]
           broken_host STATE (mk_exn OSError (lit "boom"))).
  - reflexivity.
  - constructor; [|constructor; [|constructor]]; eexists; vm_compute; reflexivity.
Defined.

Lemma cycle_succeeds_or_fails (cfg : config) (h : host) :
  cycle_succeeds cfg h \/ cycle_fails cfg h.
Proof.
  unfold cycle_succeeds, cycle_fails, raises.
  destruct (cycle_result cfg h) as [t|e]; [left; now exists t|right; now exists e].
Qed.

(** X5: between two cycles the stored snapshot is whole.  After any number
    of cycles from the start, either every cycle so far has failed and the
    three entries are still empty, or the three entries are the three values
    that one and the same cycle collected. *)
Theorem loop_snapshot_whole (cfg : config) (hs : list host) :
  (Forall (cycle_fails cfg) hs
   /\ system (update_loop cfg hs STATE) = None
   /\ pihole (update_loop cfg hs STATE) = None
   /\ pivpn (update_loop cfg hs STATE) = None)
  \/ (exists h s p v,
        In h hs /\ cycle_result cfg h = Ok (s, p, v)
        /\ system (update_loop cfg hs STATE) = Some s
        /\ pihole (update_loop cfg hs STATE) = Some p
        /\ pivpn (update_loop cfg hs STATE) = Some v).
Proof.
  induction hs as [|h hs IH] using rev_ind.
  - left. now repeat split.
  - rewrite update_loop_app. cbn [update_loop fold_left].
    destruct (cycle_result cfg h) as [[[s p] v]|e] eqn:Hc.
    + right. exists h, s, p, v. rewrite (update_iteration_ok cfg h _ s p v Hc).
      split; [apply in_app_iff; right; now left|]. now repeat split.
    + rewrite (update_iteration_raise cfg h _ e Hc). cbn [system pihole pivpn].
      destruct IH as [(Hall & Hs & Hp & Hv)|(h' & s & p & v & Hin & Hc' & Hs & Hp & Hv)].
      * left. split; [|now repeat split].
        apply Forall_app. split; [exact Hall|]. constructor; [|constructor].
        now exists e.
      * right. exists h', s, p, v.
        split; [apply in_app_iff; now left|]. now repeat split.
Qed.

(** X6: once a cycle has failed, every later state shows an error; and once
    an entry is stored it is never empty again. *)
Theorem loop_never_clears (cfg : config) (hs : list host) (st : state) :
  (is_Some (last_error st) -> is_Some (last_error (update_loop cfg hs st)))
  /\ (is_Some (system st) -> is_Some (system (update_loop cfg hs st)))
  /\ (is_Some (pihole st) -> is_Some (pihole (update_loop cfg hs st)))
  /\ (is_Some (pivpn st) -> is_Some (pivpn (update_loop cfg hs st))).
Proof.
  revert st. induction hs as [|h hs IH]; intros st; [now repeat split|].
  rewrite update_loop_cons.
  destruct (IH (update_iteration cfg h st)) as (He & Hs & Hp & Hv).
  destruct (cycle_result cfg h) as [[[s p] v]|e] eqn:Hc.
  - rewrite (update_iteration_ok cfg h st s p v Hc) in *. cbn in *.
    split; [|split; [|split]]; intros H;
      first [apply He | apply Hs | apply Hp | apply Hv];
      first [exact H | now eexists].
  - rewrite (update_iteration_raise cfg h st e Hc) in *. cbn in *.
    split; [|split; [|split]]; intros H;
      first [apply He | apply Hs | apply Hp | apply Hv];
      first [exact H | now eexists].
Qed.

Lemma loop_never_clears_witness :
  is_Some (last_error
             (update_loop CONFIG [calm_host "2024-01-01T00:00:10" true]
                (update_iteration CONFIG broken_host STATE))).
Proof.
  apply (loop_never_clears CONFIG [calm_host "2024-01-01T00:00:10" true]
           (update_iteration CONFIG broken_host STATE)).
  eexists. reflexivity.
Defined.

(* ===================================================================== *)
(** ** Further properties: the interleaving *)
(* ===================================================================== *)

Section QuiescenceFacts.

Variable collected : nat -> result (system_stats * pihole_stats * pivpn_stats).

Lemma run_app (s1 s2 : list action) (m : machine) :
  run collected (s1 ++ s2) m = run collected s2 (run collected s1 m).
Proof. unfold run. apply fold_left_app. Qed.

Lemma poll_step_core (m m' : machine) :
  shared m = shared m' -> cycle m = cycle m' -> poll m = poll m' ->
  shared (poll_step collected m) = shared (poll_step collected m')
  /\ cycle (poll_step collected m) = cycle (poll_step collected m')
  /\ poll (poll_step collected m) = poll (poll_step collected m').
Proof.
  intros Hs Hc Hp. unfold poll_step. rewrite <- Hp, <- Hs, <- Hc.
  destruct (poll m); cbn; now repeat split.
Qed.

Lemma run_core (schedule : list action) (m m' : machine) :
  shared m = shared m' -> cycle m = cycle m' -> poll m = poll m' ->
  shared (run collected schedule m)
  = shared (run collected (List.filter is_poll schedule) m')
  /\ cycle (run collected schedule m)
     = cycle (run collected (List.filter is_poll schedule) m')
  /\ poll (run collected schedule m)
     = poll (run collected (List.filter is_poll schedule) m').
Proof.
  revert m m'. induction schedule as [|a rest IH]; intros m m' Hs Hc Hp.
  - now repeat split.
  - destruct a as [| |i]; cbn [List.filter is_poll run fold_left step].
    + destruct (poll_step_core m m' Hs Hc Hp) as (Hs' & Hc' & Hp').
      exact (IH _ _ Hs' Hc' Hp').
    + apply IH; assumption.
    + apply IH; assumption.
Qed.

Lemma stores_in_step_poll (m : machine) :
  stores_in_step collected m -> stores_in_step collected (poll_step collected m).
Proof.
  unfold stores_in_step, poll_step.
  destruct (poll m) as [|s p v|p v|v|e|] eqn:Hpc; cbn; intros H.
  - destruct (collected (cycle m)) as [[[s p] v]|e] eqn:Hc; cbn; [|exact H].
    split; [exact H|]. now exists (cycle m).
  - destruct H as (_ & k & Hk). now exists k, s.
  - destruct H as (k & s & Hk & Hs). now exists k, s, p.
  - destruct H as (k & s & p & Hk & Hs & Hp). right. now exists k, s, p, v.
  - exact H.
  - exact H.
Qed.

Lemma stores_in_step_run (schedule : list action) (m : machine) :
  stores_in_step collected m ->
  stores_in_step collected (run collected schedule m).
Proof.
  revert m. induction schedule as [|a rest IH]; intros m Hm; [exact Hm|].
  cbn [run fold_left]. apply IH. destruct a; cbn [step].
  - now apply stores_in_step_poll.
  - exact Hm.
  - exact Hm.
Qed.

Lemma four_reads (m : machine) (i : nat) :
  handlers m !! i = Some R_start ->
  handlers (run collected [Handler i; Handler i; Handler i; Handler i] m) !! i
  = Some (R_done (snapshot (shared m))).
Proof.
  intros Hi. cbn. rewrite !list_lookup_alter_eq, Hi. reflexivity.
Qed.

End QuiescenceFacts.

(** X7: requests never change what is stored.  After any interleaving,
    [STATE] and the position of the poll thread are what the poll thread's
    own steps make them, as if no request had arrived. *)
Theorem requests_do_not_interfere
    (collected : nat -> result (system_stats * pihole_stats * pivpn_stats))
    (schedule : list action) (m : machine) :
  shared (run collected schedule m)
  = shared (run collected (List.filter is_poll schedule) m)
  /\ cycle (run collected schedule m)
     = cycle (run collected (List.filter is_poll schedule) m)
  /\ poll (run collected schedule m)
     = poll (run collected (List.filter is_poll schedule) m).
Proof. now apply run_core. Qed.

(** X8: a handler that is not overtaken reads a whole snapshot unless the
    poll thread stands in the middle of its stores.  After any interleaving,
    if the poll thread has stored no part of a cycle without the rest and a
    handler does its reads with no step of the poll thread in between, what
    it reads is the empty start or the three values of one cycle. *)
Theorem undisturbed_read_is_whole
    (collected : nat -> result (system_stats * pihole_stats * pivpn_stats))
    (schedule : list action) (i : nat) :
  mid_store (poll (run collected schedule boot)) = false ->
  handlers (run collected schedule boot) !! i = Some R_start ->
  exists w,
    handlers (run collected
                (schedule ++ [Handler i; Handler i; Handler i; Handler i])
                boot) !! i = Some (R_done w)
    /\ of_one_cycle collected w.
Proof.
  intros Hmid Hi. rewrite run_app.
  exists (snapshot (shared (run collected schedule boot))).
  split; [now apply four_reads|].
  assert (Hinv : stores_in_step collected (run collected schedule boot)).
  { apply stores_in_step_run. left. now repeat split. }
  unfold stores_in_step in Hinv.
  destruct (poll (run collected schedule boot)); try discriminate Hmid;
    try exact Hinv.
  exact (proj1 Hinv).
Qed.

Lemma undisturbed_read_is_whole_witness :
  exists w,
    handlers (run two_cycles
                ([Poll; Poll; Poll; Poll; Poll; Poll; Accept]
                 ++ [Handler 0; Handler 0; Handler 0; Handler 0])
                boot) !! 0%nat = Some (R_done w)
    /\ of_one_cycle two_cycles w.
Proof.
  apply (undisturbed_read_is_whole two_cycles
           [Poll; Poll; Poll; Poll; Poll; Poll; Accept] 0).
  - vm_compute. reflexivity.
  - vm_compute. reflexivity.
Defined.

Lemma polls_of_cycle_run
    (collected : nat -> result (system_stats * pihole_stats * pivpn_stats))
    (m : machine) :
  poll m = W_collect ->
  run collected (polls_of_cycle collected (cycle m)) m
  = {| shared := match collected (cycle m) with
                 | Ok (s, p, v) =>
                     set_pivpn v (set_pihole p (set_system s (shared m)))
                 | Raise e => set_last_error (exn_str e) (shared m)
                 end;
       cycle := S (cycle m); poll := W_collect; handlers := handlers m |}.
Proof.
  intros Hpc. unfold polls_of_cycle.
  destruct (collected (cycle m)) as [[[s p] v]|e] eqn:Hc.
  - now apply poll_thread_alone.
  - now apply poll_thread_alone_failing.
Qed.

Lemma polls_of_cycles_run (cfg : config) (hosts : nat -> host) (n : nat) :
  run (fun k => cycle_result cfg (hosts k))
      (polls_of_cycles (fun k => cycle_result cfg (hosts k)) n) boot
  = {| shared := update_loop cfg (List.map hosts (seq 0 n)) STATE;
       cycle := n; poll := W_collect; handlers := [] |}.
Proof.
  induction n as [|n IH]; [reflexivity|].
  unfold polls_of_cycles in *. rewrite seq_S, flat_map_app, run_app, IH.
  cbn [flat_map Nat.add]. rewrite app_nil_r.
  rewrite List.map_app, update_loop_app. cbn [List.map].
  match goal with
  | |- run ?c (polls_of_cycle ?c n) ?m = _ =>
      pose proof (polls_of_cycle_run c m eq_refl) as Hrun
  end.
  cbn [cycle shared handlers] in Hrun. rewrite Hrun. reflexivity.
Qed.

(** X9: the interleaving agrees with the loop.  Whatever requests arrive in
    between, once the poll thread has gone through its first [n] cycles
    [STATE] is what [update_loop] computes over the hosts of these cycles. *)
Theorem interleaving_agrees_with_loop (cfg : config) (hosts : nat -> host)
    (n : nat) (schedule : list action) :
  List.filter is_poll schedule
  = polls_of_cycles (fun k => cycle_result cfg (hosts k)) n ->
  shared (run (fun k => cycle_result cfg (hosts k)) schedule boot)
  = update_loop cfg (List.map hosts (seq 0 n)) STATE.
Proof.
  intros Hpolls.
  destruct (run_core (fun k => cycle_result cfg (hosts k)) schedule boot boot
              eq_refl eq_refl eq_refl) as (-> & _).
  rewrite Hpolls, polls_of_cycles_run. reflexivity.
Qed.

Lemma interleaving_agrees_with_loop_witness :
  shared (run (fun k => cycle_result CONFIG
                          (match k with
                           | O => broken_host
                           | S _ => calm_host "2024-01-01T00:00:10" true
                           end))
              [Accept; Poll; Handler 0; Poll; Poll; Accept; Poll; Handler 1;
               Poll; Poll; Handler 0; Poll; Poll]
              boot)
  = update_loop CONFIG
      (List.map (fun k => match k with
                          | O => broken_host
                          | S _ => calm_host "2024-01-01T00:00:10" true
                          end) (seq 0 2)) STATE.
Proof.
  apply (interleaving_agrees_with_loop CONFIG
           (fun k => match k with
                     | O => broken_host
                     | S _ => calm_host "2024-01-01T00:00:10" true
                     end) 2).
  vm_compute. reflexivity.
Defined.

(* ===================================================================== *)
(** ** Further properties: the projections *)
(* ===================================================================== *)

Lemma collectors_return (cfg : config) (h : host) :
  names_given (PIHOLE_SERVICES cfg) -> names_given (PIVPN_SERVICES cfg) ->
  exists ph pv,
    collect_pihole_stats cfg h = Ok ph /\ collect_pivpn_stats cfg h = Ok pv
    /\ (pihole_service_ok ph = true <-> some_unit_active h (PIHOLE_SERVICES cfg))
    /\ (pivpn_service_ok pv = true <-> some_unit_active h (PIVPN_SERVICES cfg)).
Proof.
  intros Hph Hpv.
  destruct (any_active_named h _ Hph) as (okh & Hokh & Hiffh).
  destruct (any_active_named h _ Hpv) as (okv & Hokv & Hiffv).
  unfold collect_pihole_stats, collect_pivpn_stats.
  rewrite Hokh, Hokv, !run_cmd_eq. cbn [bind].
  eexists. eexists. split; [reflexivity|]. split; [reflexivity|].
  cbn [pihole_service_ok pivpn_service_ok]. now split.
Qed.

Lemma system_stats_time (h : host) (s : system_stats) :
  collect_system_stats h = Ok s -> time s = utcnow_isoformat h ++ lit "Z".
Proof.
  unfold collect_system_stats, get_cpu_temp_c.
  destruct (psutil_cpu_percent h); [|discriminate].
  destruct (os_getloadavg h); [|discriminate].
  destruct (psutil_virtual_memory h); [|discriminate].
  destruct (psutil_disk_usage h (lit "/")); [|discriminate]. cbn [bind].
  destruct (get_uptime_seconds h); [|discriminate]. cbn [bind].
  now intros [= <-].
Qed.

(** X10: after a cycle whose system readings succeed, [/health] shows each
    service [OK] exactly when one of its configured units is reported
    active and [DOWN] otherwise, never [UNKNOWN]; [overall_ok] holds exactly
    when both services have an active unit; the time stamp is the one of
    the cycle and an older error is still shown. *)
Theorem health_after_cycle (cfg : config) (h : host) (st : state) :
  names_given (PIHOLE_SERVICES cfg) -> names_given (PIVPN_SERVICES cfg) ->
  ~ raises (collect_system_stats h) ->
  let hl := handle_health (update_iteration cfg h st) in
  (h_pihole_status hl = lit "OK" <-> some_unit_active h (PIHOLE_SERVICES cfg))
  /\ (h_pihole_status hl = lit "DOWN" <-> ~ some_unit_active h (PIHOLE_SERVICES cfg))
  /\ (h_pivpn_status hl = lit "OK" <-> some_unit_active h (PIVPN_SERVICES cfg))
  /\ (h_pivpn_status hl = lit "DOWN" <-> ~ some_unit_active h (PIVPN_SERVICES cfg))
  /\ (h_overall_ok hl = true <->
      some_unit_active h (PIHOLE_SERVICES cfg)
      /\ some_unit_active h (PIVPN_SERVICES cfg))
  /\ h_last_update hl = Some (utcnow_isoformat h ++ lit "Z")
  /\ h_last_error hl = last_error st.
Proof.
  intros Hph Hpv Hsys hl. subst hl.
  destruct (collectors_return cfg h Hph Hpv) as (ph & pv & Hcph & Hcpv & Hiffh & Hiffv).
  destruct (collect_system_stats h) as [s|e] eqn:Hs;
    [|exfalso; apply Hsys; now exists e].
  pose proof (system_stats_time h s Hs) as Htime.
  unfold update_iteration, poll_cycle, collect_cycle.
  rewrite Hs, Hcph, Hcpv. cbn.
  rewrite Htime. rewrite <- Hiffh, <- Hiffv.
  destruct (pihole_service_ok ph), (pivpn_service_ok pv); cbn;
    repeat split; try tauto; try discriminate; try congruence;
    try (intros H; vm_compute in H; discriminate H).
Qed.

Lemma health_after_cycle_witness :
  h_pihole_status
    (handle_health
       (update_iteration CONFIG (calm_host "2024-01-01T00:00:10" true) STATE))
  = lit "OK".
Proof.
  destruct (health_after_cycle CONFIG (calm_host "2024-01-01T00:00:10" true) STATE)
    as (Hok & _).
  - repeat constructor; discriminate.
  - repeat constructor; discriminate.
  - intros [e He]. vm_compute in He. discriminate He.
  - apply Hok. exists (lit "pihole-FTL.service"). split; [now left|].
    eexists. split; reflexivity.
Defined.

(** A failed cycle changes nothing that is served but the error.  The
    metric feed after it is the feed of before, and [/health] is the answer
    of before with [last_error] set to the text of the exception. *)
Theorem failed_cycle_serves_stale (cfg : config) (h h' : host) (st : state)
    (e : exn) :
  cycle_result cfg h = Raise e ->
  handle_metrics h' (update_iteration cfg h st) = handle_metrics h' st
  /\ handle_health (update_iteration cfg h st)
     = {| h_system := h_system (handle_health st);
          h_pihole_status := h_pihole_status (handle_health st);
          h_pihole_stats := h_pihole_stats (handle_health st);
          h_pivpn_status := h_pivpn_status (handle_health st);
          h_pivpn_connected_clients := h_pivpn_connected_clients (handle_health st);
          h_overall_ok := h_overall_ok (handle_health st);
          h_last_update := h_last_update (handle_health st);
          h_last_error := Some (exn_str e) |}.
Proof.
  intros He. rewrite (update_iteration_raise cfg h st e He). now split.
Qed.

Lemma failed_cycle_serves_stale_witness :
  handle_metrics broken_host (update_iteration CONFIG broken_host mixed_state)
  = handle_metrics broken_host mixed_state.
Proof.
  exact (proj1 (failed_cycle_serves_stale CONFIG broken_host broken_host
                  mixed_state (mk_exn OSError (lit "boom")) eq_refl)).
Defined.

Lemma float_of_int_raises (n : Z) (e : exn) :
  float_of_int n = Raise e -> exn_class_of e = OverflowError.
Proof.
  unfold float_of_int. destruct (is_infinity _); [|discriminate].
  now intros [= <-].
Qed.

(** One pass of the loop over the Pi-hole keys: a line for a value that
    reads as a number, nothing for a value that does not, an exception for
    an integer that is too large. *)
Lemma stat_lines_cases (h : host) (stats : gmap str json) (k : str) :
  (exists x, stat_reads h stats k x
             /\ stat_lines h stats k = Ok [stat_line h k x])
  \/ ((forall x, ~ stat_reads h stats k x) /\ ~ stat_overflows stats k
      /\ stat_lines h stats k = Ok [])
  \/ (stat_overflows stats k
      /\ exists e, stat_lines h stats k = Raise e
                   /\ exn_class_of e = OverflowError).
Proof.
  unfold stat_lines, stat_reads, stat_overflows, stat_line.
  destruct (stats !! k) as [v|] eqn:Hk.
  2:{ right. left. split; [|split; [|reflexivity]].
      - intros x (v & Hv & _). discriminate.
      - intros (n & Hn & _). discriminate. }
  destruct v as [|b|n|f|s|items|items]; cbn [py_float bind try_except_only].
  - right. left. split; [|split; [|reflexivity]].
    + intros x (v & [= <-] & Hne & _). congruence.
    + intros (n & Hn & _). discriminate.
  - left. eexists. split; [|reflexivity].
    eexists. split; [reflexivity|]. split; [discriminate|reflexivity].
  - destruct (float_of_int n) as [f|e] eqn:Hf; cbn.
    + left. exists f. split; [|reflexivity].
      exists (JInt n). split; [reflexivity|]. split; [discriminate|exact Hf].
    + right. right. pose proof (float_of_int_raises n e Hf) as Hclass.
      split; [exists n; split; [reflexivity|now exists e]|].
      exists e. split; [|exact Hclass].
      unfold is_value_error, is_type_error. now rewrite Hclass.
  - left. exists f. split; [|reflexivity].
    exists (JFloat f). split; [reflexivity|]. split; [discriminate|reflexivity].
  - destruct (float_of_str h s) as [f|] eqn:Hf; cbn.
    + left. exists f. split; [|reflexivity].
      exists (JStr s). split; [reflexivity|]. split; [discriminate|].
      cbn. now rewrite Hf.
    + right. left. split; [|split; [|reflexivity]].
      * intros x (v & [= <-] & _ & Hx). cbn in Hx. rewrite Hf in Hx. discriminate.
      * intros (n & Hn & _). discriminate.
  - right. left. split; [|split; [|reflexivity]].
    + intros x (v & [= <-] & _ & Hx). discriminate.
    + intros (n & Hn & _). discriminate.
  - right. left. split; [|split; [|reflexivity]].
    + intros x (v & [= <-] & _ & Hx). discriminate.
    + intros (n & Hn & _). discriminate.
Qed.

Lemma stat_reads_functional (h : host) (stats : gmap str json) (k : str)
    (x y : float) :
  stat_reads h stats k x -> stat_reads h stats k y -> x = y.
Proof.
  intros (v & Hv & _ & Hx) (v' & Hv' & _ & Hy). congruence.
Qed.

Lemma stats_lines_cases (h : host) (stats : gmap str json) (keys : list str) :
  (exists ls,
      stats_lines h stats keys = Ok ls
      /\ (forall l, In l ls <->
            exists k x, In k keys /\ stat_reads h stats k x
                        /\ l = stat_line h k x)
      /\ forall k, In k keys -> ~ stat_overflows stats k)
  \/ (exists e k,
        stats_lines h stats keys = Raise e
        /\ exn_class_of e = OverflowError
        /\ In k keys /\ stat_overflows stats k).
Proof.
  induction keys as [|k rest IH]; cbn [stats_lines].
  - left. exists []. split; [reflexivity|]. split.
    + intros l. split; [intros []|]. now intros (k & x & [] & _).
    + intros k [].
  - destruct (stat_lines_cases h stats k)
      as [(x & Hx & ->)|[(Hno & Hnov & ->)|(Hov & e & -> & Hclass)]]; cbn [bind].
    + destruct IH as [(ls & -> & Hls & Hnov)|(e & k' & -> & Hclass & Hin & Hov)];
        cbn [bind].
      * left. eexists. split; [reflexivity|]. split.
        -- intros l. cbn [app In]. rewrite Hls. split.
           ++ intros [<-|(k' & x' & Hin & Hr & ->)].
              ** exists k, x. split; [now left|]. now split.
              ** exists k', x'. split; [now right|]. now split.
           ++ intros (k' & x' & [<-|Hin] & Hr & ->).
              ** left. now rewrite (stat_reads_functional h stats k x x' Hx Hr).
              ** right. now exists k', x'.
        -- intros k' [<-|Hin]; [|now apply Hnov].
           intros (n & Hn & e & He). destruct Hx as (v & Hv & _ & Hf).
           rewrite Hn in Hv. injection Hv as <-. cbn in Hf. congruence.
      * right. exists e, k'. repeat split; try assumption. now right.
    + destruct IH as [(ls & -> & Hls & Hnov')|(e & k' & -> & Hclass & Hin & Hov)];
        cbn [bind].
      * left. exists ls. split; [reflexivity|]. split.
        -- intros l. rewrite Hls. split.
           ++ intros (k' & x' & Hin & Hr & ->). exists k', x'.
              split; [now right|]. now split.
           ++ intros (k' & x' & [<-|Hin] & Hr & ->).
              ** exfalso. exact (Hno x' Hr).
              ** now exists k', x'.
        -- intros k' [<-|Hin]; [exact Hnov|now apply Hnov'].
      * right. exists e, k'. repeat split; try assumption. now right.
    + right. exists e, k. repeat split; try assumption. now left.
Qed.

(** The list [lines]: the system gauges, the Pi-hole gauge, the lines of
    the Pi-hole values, the PiVPN gauge and the client count. *)
Lemma metrics_lines_shape (h : host) (st : state) :
  match stats_lines h (default ∅ (get stats (pihole st))) pihole_keys with
  | Ok pl =>
      exists sl cl,
        metrics_lines h st
        = Ok (sl ++ [ok_gauge "pihole_service_ok"
                       (get pihole_service_ok (pihole st))]
              ++ pl
              ++ [ok_gauge "pivpn_service_ok"
                    (get pivpn_service_ok (pivpn st))]
              ++ cl)
        /\ Forall (fun l => starts_with (lit "pi_") l = true) sl
        /\ Forall (fun l => starts_with (lit "pivpn_connected_clients ") l = true) cl
  | Raise e => metrics_lines h st = Raise e
  end.
Proof.
  unfold metrics_lines.
  destruct (stats_lines h _ pihole_keys) as [pl|e]; cbn [bind]; [|reflexivity].
  eexists. eexists. split; [reflexivity|]. split.
  - apply Forall_app. split; [repeat constructor|].
    apply Forall_app. split.
    + destruct (get_opt temp_c (system st)); repeat constructor.
    + destruct (get_opt uptime_seconds (system st)); repeat constructor.
  - destruct (get_opt connected_clients (pivpn st)); repeat constructor.
Qed.

(** X11: [handle_metrics] raises exactly when one of the four Pi-hole keys
    holds an integer too large for a double, and then with
    [OverflowError]; in every other state it returns. *)
Theorem metrics_raises_iff (h : host) (st : state) :
  (raises (handle_metrics h st) <->
   exists k, In k pihole_keys
             /\ stat_overflows (default ∅ (get stats (pihole st))) k)
  /\ (forall e, handle_metrics h st = Raise e ->
        exn_class_of e = OverflowError).
Proof.
  unfold handle_metrics, raises.
  pose proof (metrics_lines_shape h st) as Hshape.
  destruct (stats_lines_cases h (default ∅ (get stats (pihole st))) pihole_keys)
    as [(ls & Hls & _ & Hnov)|(e & k & He & Hclass & Hin & Hov)].
  - rewrite Hls in Hshape. destruct Hshape as (sl & cl & -> & _). cbn [bind].
    split.
    + split; [intros [e He]; discriminate|].
      intros (k & Hin & Hov). exfalso. exact (Hnov k Hin Hov).
    + intros e He. discriminate.
  - rewrite He in Hshape. rewrite Hshape. cbn [bind]. split.
    + split; [intros _; now exists k|intros _; now exists e].
    + now intros e' [= <-].
Qed.

Ltac prefix_clash H1 H2 :=
  let H := fresh in
  destruct (starts_with_comparable _ _ _ H1 H2) as [H|H];
  vm_compute in H; discriminate H.

Lemma metrics_lines_members (h : host) (st : state) (lines : list str) :
  metrics_lines h st = Ok lines ->
  exists sl ls cl,
    stats_lines h (default ∅ (get stats (pihole st))) pihole_keys = Ok ls
    /\ (forall l, In l sl -> starts_with (lit "pi_") l = true)
    /\ (forall l, In l cl ->
          starts_with (lit "pivpn_connected_clients ") l = true)
    /\ forall l,
         In l lines <->
         In l sl
         \/ l = ok_gauge "pihole_service_ok" (get pihole_service_ok (pihole st))
         \/ In l ls
         \/ l = ok_gauge "pivpn_service_ok" (get pivpn_service_ok (pivpn st))
         \/ In l cl.
Proof.
  intros Hlines. pose proof (metrics_lines_shape h st) as Hshape.
  destruct (stats_lines h _ pihole_keys) as [ls|e]; [|congruence].
  destruct Hshape as (sl & cl & Heq & Hsl & Hcl).
  exists sl, ls, cl. split; [reflexivity|].
  rewrite Forall_forall in Hsl, Hcl.
  split; [intros l Hl; now apply Hsl, list_elem_of_In|].
  split; [intros l Hl; now apply Hcl, list_elem_of_In|].
  assert (lines = sl ++ [ok_gauge "pihole_service_ok"
                           (get pihole_service_ok (pihole st))]
                  ++ ls ++ [ok_gauge "pivpn_service_ok"
                              (get pivpn_service_ok (pivpn st))] ++ cl)
    as -> by congruence.
  intros l. rewrite !in_app_iff. cbn [In]. intuition congruence.
Qed.

(** X12: the feed has a line [pihole_<key> <number>] for a key exactly when
    the stored value is there, is not [None] and [float] accepts it (a
    number, a truth value, a numeric text); a missing key, [None], a list,
    an object or any other text gives no line.  Nothing else in the feed
    starts with [pihole_] but the service gauge. *)
Theorem stat_lines_emitted (h : host) (st : state) (lines : list str) :
  metrics_lines h st = Ok lines ->
  (forall k x, In k pihole_keys ->
     stat_reads h (default ∅ (get stats (pihole st))) k x ->
     In (stat_line h k x) lines)
  /\ (forall l, In l lines -> starts_with (lit "pihole_") l = true ->
        l = ok_gauge "pihole_service_ok" (get pihole_service_ok (pihole st))
        \/ exists k x, In k pihole_keys
             /\ stat_reads h (default ∅ (get stats (pihole st))) k x
             /\ l = stat_line h k x).
Proof.
  intros Hlines.
  destruct (metrics_lines_members h st lines Hlines)
    as (sl & ls & cl & Hls & Hsl & Hcl & Hmem).
  destruct (stats_lines_cases h (default ∅ (get stats (pihole st))) pihole_keys)
    as [(ls' & Hls' & Hin & _)|(e & k & He & _)]; [|congruence].
  assert (ls' = ls) as -> by congruence.
  split.
  - intros k x Hk Hr. apply Hmem. right. right. left.
    apply Hin. now exists k, x.
  - intros l Hl Hpre. apply Hmem in Hl.
    destruct Hl as [Hl|[->|[Hl|[->|Hl]]]].
    + apply Hsl in Hl. prefix_clash Hl Hpre.
    + now left.
    + right. now apply Hin.
    + exfalso. vm_compute in Hpre. discriminate Hpre.
    + apply Hcl in Hl. prefix_clash Hl Hpre.
Qed.

Lemma stat_lines_emitted_witness :
  exists lines,
    metrics_lines broken_host mixed_state = Ok lines
    /\ In (stat_line broken_host (lit "ads_blocked_today") 450%float) lines
    /\ In (stat_line broken_host (lit "domains_being_blocked") 1%float) lines.
Proof.
  destruct (metrics_lines broken_host mixed_state) as [lines|e] eqn:Hm;
    [|exfalso; vm_compute in Hm; discriminate Hm].
  destruct (stat_lines_emitted broken_host mixed_state lines Hm) as (Hemit & _).
  exists lines. split; [reflexivity|]. split; apply Hemit.
  - cbn. tauto.
  - eexists. split; [vm_compute; reflexivity|]. split; [discriminate|reflexivity].
  - cbn. tauto.
  - eexists. split; [vm_compute; reflexivity|]. split; [discriminate|reflexivity].
Defined.

(** X13: the feed has exactly one line for each service gauge; it reads 1
    when [service_ok] is true and 0 both when it is false and when it is
    absent, so that the feed shows a service that [/health] calls [UNKNOWN]
    like one that is [DOWN]. *)
Theorem service_gauges (h : host) (st : state) (lines : list str) :
  metrics_lines h st = Ok lines ->
  let ph := lit "pihole_service_ok "
            ++ lit (if is_True (get pihole_service_ok (pihole st))
                    then "1" else "0") in
  let pv := lit "pivpn_service_ok "
            ++ lit (if is_True (get pivpn_service_ok (pivpn st))
                    then "1" else "0") in
  In ph lines /\ In pv lines
  /\ (forall l, In l lines -> metric_line "pihole_service_ok" l -> l = ph)
  /\ (forall l, In l lines -> metric_line "pivpn_service_ok" l -> l = pv)
  /\ (In (lit "pihole_service_ok 1") lines <->
      h_pihole_status (handle_health st) = lit "OK")
  /\ (In (lit "pivpn_service_ok 1") lines <->
      h_pivpn_status (handle_health st) = lit "OK").
Proof.
  intros Hlines ph pv.
  destruct (metrics_lines_members h st lines Hlines)
    as (sl & ls & cl & Hls & Hsl & Hcl & Hmem).
  destruct (stats_lines_cases h (default ∅ (get stats (pihole st))) pihole_keys)
    as [(ls' & Hls' & Hin & _)|(e & k & He & _)]; [|congruence].
  assert (ls' = ls) as -> by congruence.
  assert (Hph : ok_gauge "pihole_service_ok" (get pihole_service_ok (pihole st)) = ph).
  { subst ph. now destruct (get pihole_service_ok (pihole st)) as [[|]|]. }
  assert (Hpv : ok_gauge "pivpn_service_ok" (get pivpn_service_ok (pivpn st)) = pv).
  { subst pv. now destruct (get pivpn_service_ok (pivpn st)) as [[|]|]. }
  rewrite Hph, Hpv in Hmem.
  assert (Hone : forall l, In l lines ->
             metric_line "pihole_service_ok" l -> l = ph).
  { intros l Hl Hm. apply metric_line_prefix in Hm. apply Hmem in Hl.
    destruct Hl as [Hl|[->|[Hl|[->|Hl]]]].
    - apply Hsl in Hl. prefix_clash Hl Hm.
    - reflexivity.
    - apply Hin in Hl as (k & x & Hk & _ & ->). exfalso.
      cbn in Hk. destruct Hk as [<-|[<-|[<-|[<-|[]]]]];
        vm_compute in Hm; discriminate Hm.
    - exfalso. subst pv.
      destruct (is_True _); vm_compute in Hm; discriminate Hm.
    - apply Hcl in Hl. prefix_clash Hl Hm. }
  assert (Htwo : forall l, In l lines ->
             metric_line "pivpn_service_ok" l -> l = pv).
  { intros l Hl Hm. apply metric_line_prefix in Hm. apply Hmem in Hl.
    destruct Hl as [Hl|[->|[Hl|[->|Hl]]]].
    - apply Hsl in Hl. prefix_clash Hl Hm.
    - exfalso. subst ph.
      destruct (is_True _); vm_compute in Hm; discriminate Hm.
    - apply Hin in Hl as (k & x & Hk & _ & ->). exfalso.
      cbn in Hk. destruct Hk as [<-|[<-|[<-|[<-|[]]]]];
        vm_compute in Hm; discriminate Hm.
    - reflexivity.
    - apply Hcl in Hl. prefix_clash Hl Hm. }
  assert (Hinph : In ph lines) by (apply Hmem; tauto).
  assert (Hinpv : In pv lines) by (apply Hmem; tauto).
  split; [exact Hinph|]. split; [exact Hinpv|].
  split; [exact Hone|]. split; [exact Htwo|].
  cbn [handle_health h_pihole_status h_pivpn_status].
  split.
  - split.
    + intros Hl. assert (Hm : metric_line "pihole_service_ok" (lit "pihole_service_ok 1"))
        by (now exists (lit "1")).
      specialize (Hone _ Hl Hm). subst ph.
      destruct (get pihole_service_ok (pihole st)) as [[|]|]; cbn in *;
        first [reflexivity | vm_compute in Hone; discriminate Hone].
    + intros Hst. subst ph.
      destruct (get pihole_service_ok (pihole st)) as [[|]|]; cbn in *;
        first [exact Hinph | vm_compute in Hst; discriminate Hst].
  - split.
    + intros Hl. assert (Hm : metric_line "pivpn_service_ok" (lit "pivpn_service_ok 1"))
        by (now exists (lit "1")).
      specialize (Htwo _ Hl Hm). subst pv.
      destruct (get pivpn_service_ok (pivpn st)) as [[|]|]; cbn in *;
        first [reflexivity | vm_compute in Htwo; discriminate Htwo].
    + intros Hst. subst pv.
      destruct (get pivpn_service_ok (pivpn st)) as [[|]|]; cbn in *;
        first [exact Hinpv | vm_compute in Hst; discriminate Hst].
Qed.

Lemma service_gauges_witness :
  exists lines,
    metrics_lines broken_host STATE = Ok lines
    /\ In (lit "pihole_service_ok 0") lines
    /\ h_pihole_status (handle_health STATE) = lit "UNKNOWN".
Proof.
  destruct (metrics_lines broken_host STATE) as [lines|e] eqn:Hm;
    [|exfalso; vm_compute in Hm; discriminate Hm].
  destruct (service_gauges broken_host STATE lines Hm) as (Hin & _).
  exists lines. split; [reflexivity|]. split; [exact Hin|reflexivity].
Defined.

(* ===================================================================== *)
(** ** Further properties: the feed as text *)
(* ===================================================================== *)

Lemma no_linebreak_app (a b : str) :
  no_linebreak (a ++ b) <-> no_linebreak a /\ no_linebreak b.
Proof. unfold no_linebreak. rewrite forallb_app. apply andb_true_iff. Qed.

Lemma splitlines_from_line (cur l rest : str) :
  no_linebreak l ->
  splitlines_from cur (l ++ rest) = splitlines_from (cur ++ l) rest.
Proof.
  revert cur. induction l as [|c l IH]; intros cur Hl.
  - now rewrite app_nil_r.
  - unfold no_linebreak in Hl. cbn in Hl. apply andb_true_iff in Hl as [Hc Hl].
    apply negb_true_iff in Hc. cbn [app splitlines_from]. rewrite Hc.
    rewrite (IH (cur ++ [c]) Hl). now rewrite <- app_assoc.
Qed.

Lemma splitlines_join (ls : list str) :
  ls <> [] -> Forall no_linebreak ls -> splitlines (join NL ls ++ NL) = ls.
Proof.
  unfold splitlines. induction ls as [|p rest IH]; intros Hne Hall; [congruence|].
  inversion Hall as [|? ? Hp Hrest]; subst.
  destruct rest as [|q rest'].
  - cbn [join]. rewrite (splitlines_from_line [] p NL Hp). reflexivity.
  - change (join NL (p :: q :: rest')) with (p ++ NL ++ join NL (q :: rest')).
    rewrite <- !app_assoc. rewrite (splitlines_from_line [] p _ Hp).
    cbn [app NL]. cbn [splitlines_from]. change (is_linebreak 10) with true.
    cbn match.
    destruct (join NL (q :: rest') ++ NL) as [|c r] eqn:E.
    + exfalso. apply app_eq_nil in E as [_ E]. discriminate E.
    + change ((10 =? 13)%N) with false. cbn [andb]. f_equal.
      apply IH; [discriminate|exact Hrest].
Qed.

Lemma string_of_uint_no_linebreak (d : Decimal.uint) :
  no_linebreak (lit (NilEmpty.string_of_uint d)).
Proof.
  unfold no_linebreak, lit.
  induction d; cbn [NilEmpty.string_of_uint list_ascii_of_string List.map forallb];
    [reflexivity|..]; exact IHd.
Qed.

Lemma str_of_int_no_linebreak (n : Z) : no_linebreak (str_of_int n).
Proof.
  unfold str_of_int. destruct (Z.to_int n) as [d|d]; cbn [NilEmpty.string_of_int].
  - apply string_of_uint_no_linebreak.
  - pose proof (string_of_uint_no_linebreak d) as H.
    unfold no_linebreak, lit in *.
    cbn [list_ascii_of_string List.map forallb]. exact H.
Qed.

Lemma Ok_inj {A} (a b : A) : Ok a = Ok b -> a = b.
Proof. now intros [= ->]. Qed.

Lemma metrics_lines_no_linebreak (h : host) (st : state) (lines : list str) :
  (forall x, no_linebreak (float_repr h x)) ->
  metrics_lines h st = Ok lines -> Forall no_linebreak lines.
Proof.
  intros Hrepr Hlines. unfold metrics_lines in Hlines.
  destruct (stats_lines_cases h (default ∅ (get stats (pihole st))) pihole_keys)
    as [(ls & Hls & Hin & _)|(e & k & He & _)].
  2:{ rewrite He in Hlines. discriminate Hlines. }
  rewrite Hls in Hlines. cbn [bind] in Hlines. apply Ok_inj in Hlines.
  subst lines.
  assert (Hgauge : forall name v,
             no_linebreak (lit name) -> no_linebreak (gauge h name v)).
  { intros name v Hname. unfold gauge.
    apply no_linebreak_app. split; [exact Hname|].
    apply no_linebreak_app. split; [reflexivity|].
    destruct v; [apply Hrepr|apply str_of_int_no_linebreak]. }
  assert (Hok : forall name v,
             no_linebreak (lit name) -> no_linebreak (ok_gauge name v)).
  { intros name v Hname. unfold ok_gauge.
    apply no_linebreak_app. split; [exact Hname|].
    apply no_linebreak_app. split; [reflexivity|].
    apply str_of_int_no_linebreak. }
  repeat (apply Forall_app; split).
  - repeat (constructor; [apply Hgauge; reflexivity|]). constructor.
  - destruct (get_opt temp_c (system st)); [|constructor].
    constructor; [|constructor].
    apply no_linebreak_app. split; [reflexivity|apply Hrepr].
  - destruct (get_opt uptime_seconds (system st)); [|constructor].
    constructor; [|constructor].
    apply no_linebreak_app. split; [reflexivity|apply Hrepr].
  - constructor; [apply Hok; reflexivity|constructor].
  - apply Forall_forall. intros l Hl. apply list_elem_of_In, Hin in Hl.
    destruct Hl as (k & x & Hk & _ & ->). unfold stat_line.
    apply no_linebreak_app. split; [reflexivity|].
    apply no_linebreak_app. split.
    + cbn in Hk. destruct Hk as [<-|[<-|[<-|[<-|[]]]]]; reflexivity.
    + apply no_linebreak_app. split; [reflexivity|apply Hrepr].
  - constructor; [apply Hok; reflexivity|constructor].
  - destruct (get_opt connected_clients (pivpn st)); [|constructor].
    constructor; [|constructor].
    apply no_linebreak_app. split; [reflexivity|apply str_of_int_no_linebreak].
Qed.

(** X14: the body of [/metrics] is one metric a line.  If printing a float
    yields no line boundary, the body that [handle_metrics] returns splits
    ([str.splitlines]) into exactly the lines it was joined from, with no
    empty line at the end. *)
Theorem feed_splits_back (h : host) (st : state) (body : str) :
  (forall x, no_linebreak (float_repr h x)) ->
  handle_metrics h st = Ok body ->
  exists lines,
    metrics_lines h st = Ok lines
    /\ lines <> []
    /\ splitlines body = lines.
Proof.
  intros Hrepr Hbody. unfold handle_metrics in Hbody.
  destruct (metrics_lines h st) as [lines|e] eqn:Hlines; [|discriminate].
  cbn [bind] in Hbody. injection Hbody as <-.
  exists lines. split; [reflexivity|].
  assert (Hne : lines <> []).
  { destruct (metrics_lines_members h st lines Hlines)
      as (sl & ls & cl & _ & _ & _ & Hmem).
    intros ->. apply (proj2 (Hmem _) (or_intror (or_introl eq_refl))). }
  split; [exact Hne|].
  apply splitlines_join; [exact Hne|].
  exact (metrics_lines_no_linebreak h st lines Hrepr Hlines).
Qed.

Lemma whole_float_repr_no_linebreak (x : float) : no_linebreak (whole_float_repr x).
Proof.
  unfold whole_float_repr. destruct (Prim2SF x) as [s| | |s m e]; try reflexivity.
  - now destruct s.
  - destruct (_ && _); [|reflexivity].
    apply no_linebreak_app. split; [now destruct s|].
    apply no_linebreak_app. split; [apply str_of_int_no_linebreak|reflexivity].
Qed.

Lemma feed_splits_back_witness :
  exists body lines,
    handle_metrics broken_host mixed_state = Ok body
    /\ metrics_lines broken_host mixed_state = Ok lines
    /\ splitlines body = lines.
Proof.
  destruct (handle_metrics broken_host mixed_state) as [body|e] eqn:Hb;
    [|exfalso; vm_compute in Hb; discriminate Hb].
  destruct (feed_splits_back broken_host mixed_state body
              whole_float_repr_no_linebreak Hb) as (lines & Hl & _ & Hs).
  now exists body, lines.
Defined.

(* ===================================================================== *)
(** ** Further properties: commands, Pi-hole values, unit lists *)
(* ===================================================================== *)

Lemma lstrip_cut (s : str) : exists a, s = a ++ lstrip s /\ blank a.
Proof.
  induction s as [|c r (a & Hr & Ha)]; [now exists []|]. cbn [lstrip].
  destruct (isspace c) eqn:Hc.
  - exists (c :: a). split; [cbn; now rewrite <- Hr|].
    unfold blank in *. cbn. now rewrite Hc.
  - now exists [].
Qed.

Lemma rstrip_cut (s : str) : exists b, s = rstrip s ++ b /\ blank b.
Proof.
  unfold rstrip. destruct (lstrip_cut (rev s)) as (a & Hs & Ha).
  exists (rev a). split.
  - rewrite <- rev_app_distr, <- Hs. now rewrite rev_involutive.
  - unfold blank in *. now rewrite forallb_rev_eq.
Qed.

Lemma strip_cut (s : str) :
  exists a b, s = a ++ strip s ++ b /\ blank a /\ blank b /\ trimmed (strip s).
Proof.
  destruct (lstrip_cut s) as (a & Hs & Ha).
  destruct (rstrip_cut (lstrip s)) as (b & Hl & Hb).
  exists a, b. unfold strip. split; [now rewrite <- Hl|].
  split; [exact Ha|]. split; [exact Hb|]. split.
  - apply rstrip_trimmed, lstrip_trimmed.
  - unfold rstrip. rewrite rev_involutive. apply lstrip_trimmed.
Qed.

Lemma utf8_ignore_ascii (bs : list N) :
  Forall (fun b => (b < 128)%N) bs -> utf8_ignore bs = bs.
Proof.
  induction 1 as [|b bs Hb _ IH]; [reflexivity|]. cbn [utf8_ignore].
  apply N.ltb_lt in Hb. change 0x80%N with 128%N. now rewrite Hb, IH.
Qed.

(** X15: what [run_cmd] returns for a command that succeeds is its decoded
    output with nothing removed but white space at the two ends: the
    decoded output is white space, then the returned text, then white
    space, and the returned text neither starts nor ends with white space.
    Output that is all ASCII is decoded byte for byte. *)
Theorem run_cmd_trims (h : host) (cmd : list str) (timeout : Z) (out : bytes) :
  check_output h cmd timeout = Ok out ->
  exists text a b,
    run_cmd h cmd timeout = Ok text
    /\ decode_utf8_ignore out = a ++ text ++ b
    /\ blank a /\ blank b /\ trimmed text
    /\ (Forall (fun c => (Byte.to_N c < 128)%N) out ->
        decode_utf8_ignore out = List.map Byte.to_N out).
Proof.
  intros Hout. rewrite run_cmd_eq, Hout.
  destruct (strip_cut (decode_utf8_ignore out)) as (a & b & Hcut & Ha & Hb & Ht).
  exists (strip (decode_utf8_ignore out)), a, b.
  split; [reflexivity|]. split; [exact Hcut|].
  split; [exact Ha|]. split; [exact Hb|]. split; [exact Ht|].
  intros Hascii. unfold decode_utf8_ignore. apply utf8_ignore_ascii.
  apply Forall_forall. intros n Hn.
  apply list_elem_of_In, in_map_iff in Hn as (c & <- & Hc).
  rewrite Forall_forall in Hascii. now apply Hascii, list_elem_of_In.
Qed.

Lemma run_cmd_trims_witness :
  exists text a b,
    run_cmd padded_host pihole_cmd 5 = Ok text
    /\ decode_utf8_ignore (ascii_bytes "  {}  ") = a ++ text ++ b
    /\ blank a /\ blank b /\ trimmed text.
Proof.
  destruct (run_cmd_trims padded_host pihole_cmd 5 (ascii_bytes "  {}  ") eq_refl)
    as (text & a & b & Hr & Hd & Ha & Hb & Ht & _).
  now exists text, a, b.
Defined.

(** X16: what a parsed status leaves in [stats].  When the status command
    prints something that [json.loads] accepts, a JSON object leaves exactly
    the four keys, each with the value of the object or with [None] when
    the object lacks it, and drops every other key of the object; any
    other JSON value (a list, a number, a text, [null], a truth value)
    leaves [stats] empty. *)
Theorem pihole_stats_content (cfg : config) (h : host) (raw : str) (data : json) :
  run_cmd h [lit "pihole"; lit "-c"; lit "-j"] 5 = Ok raw ->
  raw <> [] ->
  json_loads h raw = Ok data ->
  exists r,
    collect_pihole_stats cfg h = Ok r
    /\ match data with
       | JDict items =>
           forall k, stats r !! k
                     = if bool_decide (In k pihole_keys)
                       then Some (default JNull (assoc_get items k))
                       else None
       | _ => stats r = ∅
       end.
Proof.
  intros Hraw Hne Hload. unfold collect_pihole_stats.
  destruct (any_active_spec h (PIHOLE_SERVICES cfg)) as (ok & -> & _).
  rewrite Hraw. cbn [bind]. eexists. split; [reflexivity|]. cbn [stats].
  destruct data as [|b|n|f|s|items|items];
    try (unfold parse_pihole_stats; rewrite Hload; now destruct raw).
  now apply parse_pihole_stats_object.
Qed.

Lemma pihole_stats_content_witness :
  exists r,
    collect_pihole_stats CONFIG padded_host = Ok r
    /\ stats r !! lit "dns_queries_today" = Some (JInt 9000)
    /\ stats r !! lit "unique_clients" = None.
Proof.
  destruct (pihole_stats_content CONFIG padded_host (lit "{}") status_object)
    as (r & Hr & Hstats).
  - reflexivity.
  - vm_compute. discriminate.
  - reflexivity.
  - exists r. split; [exact Hr|]. cbn in Hstats. split.
    + rewrite Hstats. reflexivity.
    + rewrite Hstats. reflexivity.
Defined.

(** X17: the order and the repetitions of the configured units do not
    matter.  Two configurations whose unit lists have the same members
    make each collector return the same record on the same host. *)
Theorem liveness_ignores_order (cfg cfg' : config) (h : host) :
  (forall u, In u (PIHOLE_SERVICES cfg) <-> In u (PIHOLE_SERVICES cfg')) ->
  (forall u, In u (PIVPN_SERVICES cfg) <-> In u (PIVPN_SERVICES cfg')) ->
  collect_pihole_stats cfg h = collect_pihole_stats cfg' h
  /\ collect_pivpn_stats cfg h = collect_pivpn_stats cfg' h.
Proof.
  intros Hph Hpv.
  assert (Hsame : forall units units',
             (forall u, In u units <-> In u units') ->
             any_of (service_active h) units = any_of (service_active h) units').
  { intros units units' Hmem.
    destruct (any_active_spec h units) as (b & -> & Hb).
    destruct (any_active_spec h units') as (b' & -> & Hb').
    f_equal. apply eq_true_iff_eq. rewrite Hb, Hb'.
    split; intros (u & Hin & Hu); exists u; (split; [now apply Hmem|exact Hu]). }
  unfold collect_pihole_stats, collect_pivpn_stats.
  now rewrite (Hsame _ _ Hph), (Hsame _ _ Hpv).
Qed.

Lemma liveness_ignores_order_witness :
  collect_pivpn_stats ab_config ab_host
  = collect_pivpn_stats
      {| POLL_INTERVAL := 10; PIHOLE_SERVICES := [];
         PIVPN_SERVICES := [lit "b.service"; lit "a.service"; lit "b.service"] |}
      ab_host.
Proof.
  apply (liveness_ignores_order ab_config
           {| POLL_INTERVAL := 10; PIHOLE_SERVICES := [];
              PIVPN_SERVICES := [lit "b.service"; lit "a.service"; lit "b.service"] |}
           ab_host).
  - intros u. reflexivity.
  - intros u. cbn. tauto.
Defined.
